(** * k8s-cc-manager: the reconciliation engine

    A shallow embedding of the two programs of the repository:

    - [cc-manager.sh] (the mode-apply utility): the pause/resume label
      transforms, the eviction of the dependent components, the per-device
      applier and the all-devices cycle [set_cc_mode] / [get_cc_mode];
    - [cmd/main.go]: the single-slot mailbox [SyncableCCModeConfig] and the
      start-up part of [start].

    External commands ([gpu_cc_tool.py], [kubectl], the sysfs files) are
    calls answered by an arbitrary environment; every call and its answer is
    recorded in a history, and the properties are stated on that history. *)

From Stdlib Require Import ZArith Ascii String List Lia Bool.
From stdpp Require Import base gmap strings list.

Local Open Scope Z_scope.

(** ** Text utilities used by the script *)

Module Text.

(** [[[ s == *pat* ]]]: [pat] occurs somewhere in [s]. *)
Fixpoint contains (pat s : string) : bool :=
  String.prefix pat s ||
  match s with
  | EmptyString => false
  | String _ s' => contains pat s'
  end.

(** The first [n] characters of [s] removed. *)
Fixpoint drop_chars (n : nat) (s : string) : string :=
  match n, s with
  | O, _ => s
  | S n', String _ s' => drop_chars n' s'
  | S _, EmptyString => EmptyString
  end.

(** [sed -r "s/pat//g"] for a pattern without regular-expression operators:
    scanning from the left, every occurrence of [pat] is removed and the scan
    resumes behind it (occurrences do not overlap, the output is not
    rescanned).  [fuel] bounds the number of scan steps. *)
Fixpoint sed_delete_all_from (fuel : nat) (pat s : string) : string :=
  match fuel with
  | O => s
  | S fuel' =>
      match s with
      | EmptyString => EmptyString
      | String c s' =>
          if String.prefix pat s
          then sed_delete_all_from fuel' pat (drop_chars (String.length pat) s)
          else String c (sed_delete_all_from fuel' pat s')
      end
  end.

Definition sed_delete_all (pat s : string) : string :=
  sed_delete_all_from (String.length s) pat s.

(** [tr -d c]: every occurrence of the character [c] is deleted. *)
Fixpoint tr_delete (c : ascii) (s : string) : string :=
  match s with
  | EmptyString => EmptyString
  | String a s' =>
      if Ascii.eqb a c then tr_delete c s' else String a (tr_delete c s')
  end.

(** The character [c] occurs in [s]. *)
Fixpoint has_char (c : ascii) (s : string) : bool :=
  match s with
  | EmptyString => false
  | String a s' => Ascii.eqb a c || has_char c s'
  end.

(** The letters of the options of the builtin [echo]. *)
Definition is_echo_flag (a : ascii) : bool :=
  match a with
  | "n" | "e" | "E" => true
  | _ => false
  end%char.

Fixpoint all_echo_flags (s : string) : bool :=
  match s with
  | EmptyString => true
  | String a s' => is_echo_flag a && all_echo_flags s'
  end.

(** A first argument that [echo] takes for options and does not write: a
    dash followed by one or more of the letters n, e and E. *)
Definition echo_option (s : string) : bool :=
  match s with
  | String d (String a s') =>
      Ascii.eqb d "-" && is_echo_flag a && all_echo_flags s'
  | _ => false
  end.

End Text.

(** ** cc-manager.sh: the pause and resume transforms *)

Module Coordinator.
Import Text.

Definition PAUSED_STR : string := "paused-for-cc-mode-change".

(** [_maybe_set_paused] *)
Definition _maybe_set_paused (current_value : string) : string :=
  if String.eqb current_value "" then ""
  else if String.eqb current_value "false" then "false"
  else if String.eqb current_value "true" then PAUSED_STR
  else if contains PAUSED_STR current_value then current_value
  else current_value +:+ "_" +:+ PAUSED_STR.

(** [_maybe_set_true].  In the last branch [echo "${current_value}"]
    writes the value, unless it takes it for options: then it writes
    nothing, or an empty line, and the result is empty. *)
Definition _maybe_set_true (current_value : string) : string :=
  if String.eqb current_value "false" then "false"
  else if String.eqb current_value PAUSED_STR then "true"
  else if echo_option current_value then ""
  else tr_delete "_" (sed_delete_all PAUSED_STR current_value).

End Coordinator.

(** ** cc-manager.sh: parsing the output of the hardware tool *)

Module Parse.
Import Text.

(** The characters of the default [IFS], which are also the field
    separators of [awk]: space, tab and newline. *)
Definition is_blank (a : ascii) : bool :=
  match a with
  | " " | "009" | "010" => true
  | _ => false
  end%char.

(** The characters that make a word a pattern of pathname expansion; the
    backslash is counted with them. *)
Definition is_pattern_char (a : ascii) : bool :=
  match a with
  | "*" | "?" | "[" | "\" => true
  | _ => false
  end%char.

(** [s] holds neither a blank nor a pattern character: where the script
    expands a variable that holds [s] without quotes, the expansion is the
    one word [s] (and no word when [s] is empty). *)
Fixpoint is_literal (s : string) : bool :=
  match s with
  | EmptyString => true
  | String a s' =>
      negb (is_blank a) && negb (is_pattern_char a) && is_literal s'
  end.

(** A value that an unquoted expansion passes on as one argument. *)
Definition argument (s : string) : Prop := s <> "" /\ is_literal s = true.

(** [s] is made of ASCII characters other than NUL and holds no pattern
    character. *)
Fixpoint is_text (s : string) : bool :=
  match s with
  | EmptyString => true
  | String a s' =>
      (0 <? N_of_ascii a)%N && (N_of_ascii a <? 128)%N
      && negb (is_pattern_char a) && is_text s'
  end.

Definition flush (cur : string) : list string :=
  if String.eqb cur "" then [] else [cur].

(** Splitting into blank-separated words ([cur] is the word being read). *)
Fixpoint words_from (cur s : string) : list string :=
  match s with
  | EmptyString => flush cur
  | String a s' =>
      if is_blank a then flush cur ++ words_from "" s'
      else words_from (cur +:+ String a "") s'
  end.

Definition words (s : string) : list string := words_from "" s.

(** [echo $output]: the words of [output] joined by single spaces.  This
    is what the script writes when no word of [output] is a pattern of
    pathname expansion and its first word is no option of [echo]
    ([echo_option]); the statements that depend on it say so. *)
Definition echo_unquoted (s : string) : string :=
  String.concat " " (words s).

(** What follows the last occurrence of [pat] in [s], if there is one. *)
Fixpoint after_last (pat s : string) : option string :=
  match s with
  | EmptyString => if String.prefix pat "" then Some "" else None
  | String _ s' =>
      match after_last pat s' with
      | Some r => Some r
      | None =>
          if String.prefix pat s
          then Some (drop_chars (String.length pat) s)
          else None
      end
  end.

(** [sed 's/^.* CC mode is/CC mode is/g'] on one line: the longest prefix
    ending in " CC mode is" is replaced. *)
Definition sed_keep_from_phrase (line : string) : string :=
  match after_last " CC mode is" line with
  | Some rest => "CC mode is" +:+ rest
  | None => line
  end.

(** [echo $output | grep "CC mode is" | sed ... | awk '{print $4}'] *)
Definition mode_token (output : string) : string :=
  let line := echo_unquoted output in
  if contains "CC mode is" line
  then nth 3 (words (sed_keep_from_phrase line)) ""
  else "".

(** [_is_valid_mode]: exit status and standard output. *)
Definition _is_valid_mode (mode : string) : Z * string :=
  if String.eqb mode "on" || String.eqb mode "off" || String.eqb mode "devtools"
  then (0, "")
  else (1, "unknown mode " +:+ mode).

(** [_parse_mode]: exit status and standard output (the variable [$outupt]
    of the error message is never set and expands to nothing). *)
Definition _parse_mode (output : string) : Z * string :=
  let mode := mode_token output in
  let '(st, out) := _is_valid_mode mode in
  if st =? 0 then (0, mode)
  else (1, out +:+ String "010" "" +:+
           "error parsing CC mode from the output , invalid mode " +:+
           mode +:+ " obtained").

End Parse.

(** ** cc-manager.sh: external commands, histories and the shell monad *)

Module Shell.

(** The external commands the script runs.  All [kubectl] commands address
    the node [${NODE_NAME}]. *)
Inductive call : Type :=
  (** [python3 /usr/bin/gpu_cc_tool.py --query-cc-mode --gpu-bdf=$gpu 2>&1] *)
  | QueryCCMode (gpu : string)
  (** [python3 /usr/bin/gpu_cc_tool.py --set-cc-mode=$mode
      --reset-after-cc-mode-switch --gpu-bdf=$gpu 2>&1] *)
  | SetCCModeAndReset (mode gpu : string)
  (** [[ -e "/sys/bus/pci/devices/$gpu/driver" ]] *)
  | DriverExists (gpu : string)
  (** [echo "$gpu" > "$existing_driver/unbind"] *)
  | WriteUnbind (gpu : string)
  (** [echo > /sys/bus/pci/devices/$gpu/driver_override] *)
  | WriteDriverOverride (gpu : string)
  (** [kubectl label --overwrite node ${NODE_NAME} key=value ...] *)
  | KubectlLabel (labels : list (string * string))
  (** [kubectl wait --for=delete pod --timeout=5m ... -l app=$app] *)
  | KubectlWaitDelete (app : string).

(** Exit status and captured output of a command. *)
Record resp : Type := Resp { status : Z; output : string }.

Definition event : Type := call * resp.
Definition history : Type := list event.

(** The environment answers a command knowing everything that happened
    before it. *)
Definition environment : Type := history -> call -> resp.

(** A shell function either returns a value or ends the process ([exit]). *)
Inductive outcome (A : Type) : Type :=
  | Ret (a : A)
  | Exit (code : Z).
Arguments Ret {A} a.
Arguments Exit {A} code.

Definition sh (A : Type) : Type := environment -> history -> outcome A * history.

Definition ret {A} (a : A) : sh A := fun _ h => (Ret a, h).

Definition bind {A B} (m : sh A) (k : A -> sh B) : sh B :=
  fun env h =>
    match m env h with
    | (Ret a, h') => k a env h'
    | (Exit code, h') => (Exit code, h')
    end.

Definition exit {A} (code : Z) : sh A := fun _ h => (Exit code, h).

Definition run (c : call) : sh resp :=
  fun env h => let r := env h c in (Ret r, h ++ [(c, r)]).

(** The commands run from the empty history. *)
Definition trace {A} (m : sh A) (env : environment) : history := snd (m env []).
Definition result {A} (m : sh A) (env : environment) : outcome A := fst (m env []).

End Shell.

Declare Scope sh_scope.
Delimit Scope sh_scope with sh.
Notation "x <- m ;; k" := (Shell.bind m (fun x => k))
  (at level 100, m at next level, right associativity) : sh_scope.
Notation "m ;; k" := (Shell.bind m (fun _ => k))
  (at level 100, right associativity) : sh_scope.

(** ** cc-manager.sh: the cycle

    What a function writes to standard output is part of the model where it
    is the result of the function ([_parse_mode], [get_gpu_cc_mode],
    [get_cc_mode]); the progress messages of the other functions are left
    out.

    The script expands [$gpu], [$mode], [$CC_MODE] and the fetched labels
    without quotes.  The functions below pass these values on whole, which
    is what the script does with a value that holds neither a blank nor a
    pattern character ([Parse.is_literal]) and, for a device, is not empty
    ([Parse.argument]); a desired mode such as "on " reaches
    [_assert_gpu_cc_mode] as "on" in the script.  The statements that
    compare the desired mode with a reported mode carry these conditions
    as hypotheses. *)

Module Script.
Import Text Parse Coordinator Shell.
Local Open Scope sh_scope.

(** The shell variables the functions read: the desired mode, the array of
    discovered devices and the five labels fetched by
    [_fetch_current_labels]. *)
Record vars : Type := Vars {
  CC_MODE : string;
  gpus : list string;
  VFIO_MANAGER_DEPLOYED : string;
  VGPU_MANAGER_DEPLOYED : string;
  SANDBOX_VALIDATOR_DEPLOYED : string;
  SANDBOX_PLUGIN_DEPLOYED : string;
  VGPU_DEVICE_MANAGER_DEPLOYED : string
}.

Definition STATE_LABEL : string := "nvidia.com/cc.mode.state".

(** The label arguments of [_evict_gpu_operator_components]. *)
Definition paused_labels (v : vars) : list (string * string) :=
  [ ("nvidia.com/gpu.deploy.vfio-manager", _maybe_set_paused (VFIO_MANAGER_DEPLOYED v));
    ("nvidia.com/gpu.deploy.vgpu-manager", _maybe_set_paused (VGPU_MANAGER_DEPLOYED v));
    ("nvidia.com/gpu.deploy.sandbox-device-plugin", _maybe_set_paused (SANDBOX_PLUGIN_DEPLOYED v));
    ("nvidia.com/gpu.deploy.sandbox-validator", _maybe_set_paused (SANDBOX_VALIDATOR_DEPLOYED v));
    ("nvidia.com/gpu.deploy.vgpu-device-manager", _maybe_set_paused (VGPU_DEVICE_MANAGER_DEPLOYED v)) ].

(** The label arguments of [_reschedule_gpu_operator_components]. *)
Definition rescheduled_labels (v : vars) : list (string * string) :=
  [ ("nvidia.com/gpu.deploy.vfio-manager", _maybe_set_true (VFIO_MANAGER_DEPLOYED v));
    ("nvidia.com/gpu.deploy.vgpu-manager", _maybe_set_true (VGPU_MANAGER_DEPLOYED v));
    ("nvidia.com/gpu.deploy.sandbox-validator", _maybe_set_true (SANDBOX_VALIDATOR_DEPLOYED v));
    ("nvidia.com/gpu.deploy.sandbox-device-plugin", _maybe_set_true (SANDBOX_PLUGIN_DEPLOYED v));
    ("nvidia.com/gpu.deploy.vgpu-device-manager", _maybe_set_true (VGPU_DEVICE_MANAGER_DEPLOYED v)) ].

Section Functions.
Variable v : vars.

(** [_unbind_device_from_driver]: the status of the function is the status
    of its last command. *)
Definition _unbind_device_from_driver (gpu : string) : sh Z :=
  e <- run (DriverExists gpu) ;;
  if negb (status e =? 0) then ret 0
  else
    run (WriteUnbind gpu) ;;
    w <- run (WriteDriverOverride gpu) ;;
    ret (status w).

(** [_unbind_device] *)
Definition _unbind_device (gpu : string) : sh Z :=
  _unbind_device_from_driver gpu.

(** [_reschedule_gpu_operator_components] *)
Definition _reschedule_gpu_operator_components : sh Z :=
  r <- run (KubectlLabel (rescheduled_labels v)) ;;
  if negb (status r =? 0) then ret 1 else ret 0.

(** [_exit_failed] *)
Definition _exit_failed {A} : sh A :=
  _reschedule_gpu_operator_components ;;
  exit 1.

(** [_assert_gpu_cc_mode] *)
Definition _assert_gpu_cc_mode (gpu mode : string) : sh Z :=
  q <- run (QueryCCMode gpu) ;;
  (if negb (status q =? 0) then _exit_failed else ret tt) ;;
  let '(st, current_mode) := _parse_mode (output q) in
  if negb (st =? 0) then ret 1
  else if String.eqb current_mode mode then ret 0
  else ret 1.

(** [_assert_cc_mode]: the loop over [gpus]. *)
Fixpoint _assert_cc_mode_loop (mode : string) (gs : list string) : sh Z :=
  match gs with
  | [] => ret 0
  | gpu :: gs' =>
      a <- _assert_gpu_cc_mode gpu mode ;;
      if negb (a =? 0) then ret 1 else _assert_cc_mode_loop mode gs'
  end.

Definition _assert_cc_mode (mode : string) : sh Z :=
  _assert_cc_mode_loop mode (gpus v).

(** One [kubectl wait] of [_evict_gpu_operator_components]; its exit status
    is not looked at. *)
Definition wait_for_shutdown (deployed app : string) : sh unit :=
  if negb (String.eqb deployed "") then run (KubectlWaitDelete app) ;; ret tt
  else ret tt.

(** [_evict_gpu_operator_components] *)
Definition _evict_gpu_operator_components : sh Z :=
  r <- run (KubectlLabel (paused_labels v)) ;;
  if negb (status r =? 0) then ret 1
  else
    wait_for_shutdown (VFIO_MANAGER_DEPLOYED v) "nvidia-vfio-manager" ;;
    wait_for_shutdown (VGPU_MANAGER_DEPLOYED v) "nvidia-vgpu-manager" ;;
    wait_for_shutdown (SANDBOX_VALIDATOR_DEPLOYED v) "nvidia-sandbox-validator" ;;
    wait_for_shutdown (SANDBOX_PLUGIN_DEPLOYED v) "nvidia-sandbox-device-plugin-daemonset" ;;
    wait_for_shutdown (VGPU_DEVICE_MANAGER_DEPLOYED v) "nvidia-vgpu-device-manager" ;;
    ret 0.

(** [set_gpu_cc_mode], for a device that is an [argument] and a desired
    mode that [is_literal]. *)
Definition set_gpu_cc_mode (gpu : string) : sh Z :=
  let mode := CC_MODE v in
  a <- _assert_gpu_cc_mode gpu mode ;;
  if negb (a =? 0) then
    s <- run (SetCCModeAndReset mode gpu) ;;
    if negb (status s =? 0) then ret 1
    else
      a' <- _assert_gpu_cc_mode gpu mode ;;
      if a' =? 0 then ret 0 else ret 1
  else ret 0.

(** The body of the [for] loop of [set_cc_mode]. *)
Definition set_cc_mode_body (gpu : string) : sh unit :=
  u <- _unbind_device gpu ;;
  (if negb (u =? 0) then _exit_failed else ret tt) ;;
  s <- set_gpu_cc_mode gpu ;;
  if negb (s =? 0) then
    run (KubectlLabel [(STATE_LABEL, "failed")]) ;;
    _exit_failed
  else ret tt.

Fixpoint set_cc_mode_loop (gs : list string) : sh unit :=
  match gs with
  | [] => ret tt
  | gpu :: gs' => set_cc_mode_body gpu ;; set_cc_mode_loop gs'
  end.

(** [set_cc_mode], for devices that are [argument]s and a desired mode
    that [is_literal]. *)
Definition set_cc_mode : sh Z :=
  if (length (gpus v) =? 0)%nat then ret 0
  else
    a <- _assert_cc_mode (CC_MODE v) ;;
    if a =? 0 then ret 0
    else
      e <- _evict_gpu_operator_components ;;
      if negb (e =? 0) then ret 1
      else
        set_cc_mode_loop (gpus v) ;;
        run (KubectlLabel [(STATE_LABEL, "success")]) ;;
        r <- _reschedule_gpu_operator_components ;;
        if negb (r =? 0) then ret 1 else ret 0.

(** [get_gpu_cc_mode]: exit status and standard output. *)
Definition get_gpu_cc_mode (gpu : string) : sh (Z * string) :=
  q <- run (QueryCCMode gpu) ;;
  if negb (status q =? 0)
  then ret (1, "unable to get cc mode of gpu " +:+ gpu +:+ ", output " +:+ output q)
  else
    let '(st, mode) := _parse_mode (output q) in
    if negb (st =? 0)
    then ret (1, "unable to parse cc mode of gpu " +:+ gpu +:+ ", output " +:+ output q)
    else ret (0, mode).

(** The loop of [get_cc_mode]; [mode] is the local variable, [out] the lines
    written to standard output so far. *)
Fixpoint get_cc_mode_loop (mode : string) (out : list string) (gs : list string)
  : sh (Z * list string) :=
  match gs with
  | [] => ret (0, out ++ ["current cc mode of all supported gpus is " +:+ mode])
  | gpu :: gs' =>
      let out1 := out ++ ["getting cc mode of gpu " +:+ gpu] in
      g <- get_gpu_cc_mode gpu ;;
      let '(st, current_mode) := g in
      if negb (st =? 0)
      then ret (1, out1 ++ ["unable to get cc mode of gpu " +:+ gpu])
      else if negb (String.eqb mode "") && negb (String.eqb current_mode mode)
      then ret (1, out1 ++ ["gpus have different cc mode on the node " +:+ mode
                              +:+ ", " +:+ current_mode])
      else get_cc_mode_loop current_mode out1 gs'
  end.

(** [get_cc_mode]: exit status and the lines written to standard output. *)
Definition get_cc_mode : sh (Z * list string) :=
  if (length (gpus v) =? 0)%nat then ret (0, ["off"])
  else get_cc_mode_loop "" [] (gpus v).

End Functions.

(** *** Reading histories *)

(** Queries of the hardware tool. *)
Definition is_query (c : call) : bool :=
  match c with QueryCCMode _ => true | _ => false end.

(** Commands that change a device: the two writes of the unbind and the
    combined set-and-reset call. *)
Definition is_device_mutation (c : call) : bool :=
  match c with
  | SetCCModeAndReset _ _ | WriteUnbind _ | WriteDriverOverride _ => true
  | _ => false
  end.

(** Commands of the per-device part of the loop. *)
Definition is_device_call (c : call) : bool :=
  match c with
  | QueryCCMode _ | SetCCModeAndReset _ _
  | DriverExists _ | WriteUnbind _ | WriteDriverOverride _ => true
  | _ => false
  end.

Definition is_wait (c : call) : bool :=
  match c with KubectlWaitDelete _ => true | _ => false end.

Definition is_label_update (c : call) : bool :=
  match c with KubectlLabel _ => true | _ => false end.

(** The values a label command gives to the status label. *)
Definition state_values (labels : list (string * string)) : list string :=
  map snd (List.filter (fun kv => String.eqb (fst kv) STATE_LABEL) labels).

Definition call_writes (c : call) : list string :=
  match c with
  | KubectlLabel labels => state_values labels
  | _ => []
  end.

(** The values written to the status label, oldest first. *)
Definition status_writes (h : history) : list string :=
  flat_map (fun e : event => call_writes (fst e)) h.

(** The answer [q] of a query is a success whose output parses to [mode]:
    the condition under which [_assert_gpu_cc_mode] returns 0. *)
Definition reports (q : resp) (mode : string) : bool :=
  (status q =? 0) &&
  let '(st, current_mode) := _parse_mode (output q) in
  (st =? 0) && String.eqb current_mode mode.

(** The commands of a history. *)
Definition calls (h : history) : list call := map fst h.


(** The update of the status label to [failed]. *)
Definition is_failed_label (c : call) : bool :=
  match c with
  | KubectlLabel [(key, value)] =>
      String.eqb key STATE_LABEL && String.eqb value "failed"
  | _ => false
  end.

(** Commands of the loop of [set_cc_mode] before it ends. *)
Definition is_loop_call (c : call) : bool :=
  is_device_call c || is_failed_label c.

Definition all_calls (P : call -> bool) (t : history) : Prop :=
  Forall (fun e : event => P (fst e) = true) t.

(** How a function ends after the commands [t]: it returns after commands
    in [P], or it leaves through [_exit_failed], after commands in [Q]
    and the rescheduling label update, with exit status 1. *)
Definition ends (v : vars) (P Q : call -> bool) {A} (o : outcome A) (t : history)
  : Prop :=
  match o with
  | Ret _ => all_calls P t
  | Exit code =>
      code = 1 /\
      exists t0 r,
        t = t0 ++ [(KubectlLabel (rescheduled_labels v), r)] /\ all_calls Q t0
  end.

(** The commands of one run of [set_cc_mode], by the way it ends: nothing
    to do (no device, or every device asserted in the desired mode); a query
    failed while asserting; the label update of the eviction failed; the loop
    over the devices left through [_exit_failed]; the loop was completed. *)
Inductive cycle (v : vars) : outcome Z -> history -> Prop :=
  | cycle_nothing_to_do t :
      all_calls is_query t ->
      cycle v (Ret 0) t
  | cycle_query_failed t r :
      all_calls is_query t ->
      cycle v (Exit 1) (t ++ [(KubectlLabel (rescheduled_labels v), r)])
  | cycle_pause_failed t r :
      all_calls is_query t ->
      status r <> 0 ->
      cycle v (Ret 1) (t ++ [(KubectlLabel (paused_labels v), r)])
  | cycle_apply_failed t r tw tl r' :
      all_calls is_query t ->
      status r = 0 ->
      all_calls is_wait tw ->
      all_calls is_loop_call tl ->
      cycle v (Exit 1)
        (t ++ (KubectlLabel (paused_labels v), r) :: tw ++ tl
           ++ [(KubectlLabel (rescheduled_labels v), r')])
  | cycle_applied t r tw tl r1 r2 :
      all_calls is_query t ->
      status r = 0 ->
      all_calls is_wait tw ->
      all_calls is_device_call tl ->
      cycle v (Ret (if status r2 =? 0 then 0 else 1))
        (t ++ (KubectlLabel (paused_labels v), r) :: tw ++ tl
           ++ [(KubectlLabel [(STATE_LABEL, "success")], r1);
               (KubectlLabel (rescheduled_labels v), r2)]).

(** Every run of [m] extends the history by commands as in [ends]. *)
Definition emits (v : vars) (P Q : call -> bool) {A} (m : sh A) : Prop :=
  forall env h,
    exists t, snd (m env h) = h ++ t /\ ends v P Q (fst (m env h)) t.

End Script.

(** ** cmd/main.go: the single-slot mailbox *)

Module Watcher.

(** The fields [current] and [lastRead] of [SyncableCCModeConfig]; the mutex
    makes the bodies of [Set] and [Get] critical sections, which are the
    atomic steps below. *)
Record SyncableCCModeConfig : Type := Config {
  current : string;
  lastRead : string
}.

(** [NewSyncableCCModeConfig] *)
Definition NewSyncableCCModeConfig : SyncableCCModeConfig :=
  {| current := ""; lastRead := "" |}.

(** Where the reconciler goroutine stands with respect to [Get]: outside of
    it, suspended in [cond.Wait()], or awoken by a [Broadcast] and about to
    take the mutex again. *)
Inductive reader : Type := Outside | Waiting | Awoken.

Record state : Type := State {
  config : SyncableCCModeConfig;
  rd : reader
}.

Definition initial : state :=
  {| config := NewSyncableCCModeConfig; rd := Outside |}.

(** [Set]: [m.current = value; m.cond.Broadcast()]. *)
Definition Set_ (value : string) (s : state) : state :=
  {| config := {| current := value; lastRead := lastRead (config s) |};
     rd := match rd s with Waiting => Awoken | r => r end |}.

(** The end of [Get]: [m.lastRead = m.current; return m.lastRead]. *)
Definition Get_return (s : state) : state * option string :=
  ({| config := {| current := current (config s);
                   lastRead := current (config s) |};
      rd := Outside |},
   Some (current (config s))).

(** The start of [Get]: [if m.lastRead == m.current { m.cond.Wait() }]. *)
Definition Get (s : state) : state * option string :=
  if String.eqb (lastRead (config s)) (current (config s))
  then ({| config := config s; rd := Waiting |}, None)
  else Get_return s.

(** The steps of the two goroutines: the event handlers call [Set], the
    reconciler calls [Get], and a reconciler awoken in [Wait] resumes. *)
Inductive label : Type :=
  | CallSet (value : string)
  | CallGet
  | ResumeGet.

(** One step, with the value [Get] returns if it returns in this step;
    [None] when the step is not enabled. *)
Definition step (s : state) (l : label) : option (state * option string) :=
  match l, rd s with
  | CallSet value, _ => Some (Set_ value s, None)
  | CallGet, Outside => Some (Get s)
  | ResumeGet, Awoken => Some (Get_return s)
  | _, _ => None
  end.

(** A schedule run from [s]: the final state and the values returned by
    [Get], oldest first. *)
Fixpoint exec (s : state) (ls : list label) : option (state * list string) :=
  match ls with
  | [] => Some (s, [])
  | l :: ls' =>
      match step s l with
      | None => None
      | Some (s', r) =>
          match exec s' ls' with
          | None => None
          | Some (s'', rs) => Some (s'', option_list r ++ rs)
          end
      end
  end.

(** The argument of the last [Set] of a schedule. *)
Definition last_set (ls : list label) : option string :=
  fold_left (fun acc l => match l with CallSet value => Some value | _ => acc end)
            ls None.

(** The state after a sequence of [Set] calls. *)
Definition set_all (values : list string) (s : state) : state :=
  fold_left (fun s value => Set_ value s) values s.

(** What the state knows of the schedule that led to it: before the first
    [Set] the mailbox is empty and nobody was awoken; afterwards [current]
    is the argument of the last [Set]. *)
Definition tracks (ls : list label) (s : state) : Prop :=
  match last_set ls with
  | None =>
      current (config s) = "" /\ lastRead (config s) = "" /\ rd s <> Awoken
  | Some value => current (config s) = value
  end.

End Watcher.

(** ** cmd/main.go: start-up and the reconciler loop *)

Module Main.

Definition CCModeConfigLabel : string := "nvidia.com/cc.mode".

(** What [start] meets outside of the process: whether the client
    configuration and the client set can be built, the labels of the node
    (or an error), and whether a run of the script succeeds, given the modes
    of the earlier runs. *)
Record world : Type := World {
  build_config_ok : bool;
  new_clientset_ok : bool;
  node_labels : option (gmap string string);
  runScript_ok : list string -> string -> bool
}.

(** The two-valued index expression [value, ok := m[key]] on a
    [map[string]string]. *)
Definition map_index (m : gmap string string) (key : string) : string * bool :=
  match m !! key with
  | Some value => (value, true)
  | None => ("", false)
  end.

(** How the part of [start] before the loop ends. *)
Inductive startup : Type :=
  | ReturnError (msg : string)
  | OsExit (code : Z)
  | EnterLoop.

(** [start] up to its [for] loop: the modes [runScript] was called with and
    how the part ends. *)
Definition start_before_loop (w : world) (defaultCCModeFlag : string)
  : list string * startup :=
  if negb (build_config_ok w)
  then ([], ReturnError "error building kubernetes clientcmd config")
  else if negb (new_clientset_ok w)
  then ([], ReturnError "error building kubernetes clientset from config")
  else
    match node_labels w with
    | None => ([], ReturnError "error obtaining node labels from config")
    | Some nodeLabels =>
        let '(value, ok) := map_index nodeLabels CCModeConfigLabel in
        if negb ok || String.eqb value ""
        then
          if negb (String.eqb defaultCCModeFlag "")
          then
            if negb (runScript_ok w [] defaultCCModeFlag)
            then ([defaultCCModeFlag], OsExit 1)
            else ([defaultCCModeFlag], EnterLoop)
          else ([], EnterLoop)
        else ([], EnterLoop)
    end.

(** One iteration of the loop of [start] for the value [Get] returned: the
    mode [runScript] is called with. *)
Definition loop_mode (defaultCCModeFlag value : string) : string :=
  if String.eqb value "" then defaultCCModeFlag else value.

(** A node labelled [nvidia.com/cc.mode=on] on which every run of the
    script fails. *)
Definition labelled_on : world :=
  {| build_config_ok := true;
     new_clientset_ok := true;
     node_labels := Some {[ CCModeConfigLabel := "on" ]};
     runScript_ok := fun _ _ => false |}.

(** A node without the label on which every run of the script succeeds. *)
Definition unlabelled : world :=
  {| build_config_ok := true;
     new_clientset_ok := true;
     node_labels := Some ∅;
     runScript_ok := fun _ _ => true |}.

End Main.

(** ** Concrete nodes, used to run the script *)

Module Node.
Import Shell Script.

(** The mode of [gpu] after the history [h]: the mode of the last successful
    switch, or the mode [init] it started with. *)
Definition mode_after (init gpu : string) (h : history) : string :=
  fold_left
    (fun cur (e : event) =>
       match e with
       | (SetCCModeAndReset mode g, r) =>
           if String.eqb g gpu && (status r =? 0) then mode else cur
       | _ => cur
       end)
    h init.

(** A node on which every command succeeds, a driver is bound to every
    device and the hardware tool reports and switches modes. *)
Definition healthy (init : string -> string) : environment :=
  fun h c =>
    match c with
    | QueryCCMode gpu =>
        Resp 0 ("GPU " +:+ gpu +:+ " CC mode is " +:+ mode_after (init gpu) gpu h)
    | _ => Resp 0 ""
    end.

(** The same node with the answers of [faults] taking precedence. *)
Definition faulty (faults : history -> call -> option resp) (env : environment)
  : environment :=
  fun h c => match faults h c with Some r => r | None => env h c end.

Definition all_off : string -> string := fun _ => "off".
Definition all_on : string -> string := fun _ => "on".


(** Every [kubectl wait] runs into its timeout. *)
Definition eviction_times_out : environment :=
  faulty (fun _ c =>
            match c with
            | KubectlWaitDelete _ =>
                Some (Resp 1 "error: timed out waiting for the condition")
            | _ => None
            end)
         (healthy all_off).

(** Every [kubectl label] fails. *)
Definition label_update_fails : environment :=
  faulty (fun _ c =>
            match c with
            | KubectlLabel _ => Some (Resp 1 "error: connection refused")
            | _ => None
            end)
         (healthy all_off).

(** The hardware tool cannot be run any more once the components are
    paused. *)
Definition query_fails_after_pause : environment :=
  faulty (fun h c =>
            match c with
            | QueryCCMode _ =>
                if existsb (fun e : event => is_label_update (fst e)) h
                then Some (Resp 1 "gpu_cc_tool.py: cannot access device")
                else None
            | _ => None
            end)
         (healthy all_off).

(** The hardware tool cannot be run any more once a device was switched. *)
Definition requery_fails : environment :=
  faulty (fun h c =>
            match c with
            | QueryCCMode _ =>
                if existsb (fun e : event =>
                              match fst e with
                              | SetCCModeAndReset _ _ => true
                              | _ => false
                              end) h
                then Some (Resp 1 "gpu_cc_tool.py: cannot access device")
                else None
            | _ => None
            end)
         (healthy all_off).

(** The switch is accepted but the devices stay in their mode. *)
Definition switch_has_no_effect : environment :=
  fun h c =>
    match c with
    | QueryCCMode gpu => Resp 0 ("GPU " +:+ gpu +:+ " CC mode is off")
    | _ => Resp 0 ""
    end.

Definition two_gpus (mode : string) : vars :=
  {| CC_MODE := mode;
     gpus := ["0000:41:00.0"; "0000:61:00.0"];
     VFIO_MANAGER_DEPLOYED := "true";
     VGPU_MANAGER_DEPLOYED := "";
     SANDBOX_VALIDATOR_DEPLOYED := "true";
     SANDBOX_PLUGIN_DEPLOYED := "false";
     VGPU_DEVICE_MANAGER_DEPLOYED := "v1.2" |}.

Definition one_gpu (mode : string) : vars :=
  {| CC_MODE := mode;
     gpus := ["0000:41:00.0"];
     VFIO_MANAGER_DEPLOYED := "true";
     VGPU_MANAGER_DEPLOYED := "";
     SANDBOX_VALIDATOR_DEPLOYED := "";
     SANDBOX_PLUGIN_DEPLOYED := "";
     VGPU_DEVICE_MANAGER_DEPLOYED := "" |}.

Definition no_gpu (mode : string) : vars :=
  {| CC_MODE := mode;
     gpus := [];
     VFIO_MANAGER_DEPLOYED := "true";
     VGPU_MANAGER_DEPLOYED := "";
     SANDBOX_VALIDATOR_DEPLOYED := "";
     SANDBOX_PLUGIN_DEPLOYED := "";
     VGPU_DEVICE_MANAGER_DEPLOYED := "" |}.

End Node.

(** ** cc-manager.sh: configuration, discovery and the commands *)

Module Discovery.
Import Text Parse.

(** [tr a b]: every character [a] is replaced by [b]. *)
Fixpoint tr_char (a b : ascii) (s : string) : string :=
  match s with
  | EmptyString => EmptyString
  | String c s' => String (if Ascii.eqb c a then b else c) (tr_char a b s')
  end.

(** [_populate_cc_capable_device_ids]: the exit status and the array
    [device_ids], the words of [echo $CC_CAPABLE_DEVICE_IDS | tr "," "\n"],
    for a value that holds no pattern character and that [echo] does not
    take for options. *)
Definition _populate_cc_capable_device_ids (CC_CAPABLE_DEVICE_IDS : string)
  : Z * list string :=
  let device_ids :=
    words (tr_char "," "010" (echo_unquoted CC_CAPABLE_DEVICE_IDS)) in
  if (length device_ids =? 0)%nat then (1, device_ids) else (0, device_ids).

(** An entry of [/sys/bus/pci/devices]: its name and what is read from its
    files [vendor], [class] and [device]. *)
Record pci_device : Type := PciDevice {
  bdf : string;
  vendor : string;
  class : string;
  device : string
}.

(** [_array_contains]: status 0 when [seeking] is an element, 1 otherwise. *)
Fixpoint _array_contains (array : list string) (seeking : string) : Z :=
  match array with
  | [] => 1
  | element :: rest =>
      if String.eqb element seeking then 0 else _array_contains rest seeking
  end.

(** [_get_all_cc_capable_gpus]: the array [gpus] after the loop over the
    entries [devs], in the order of the directory.  The status of the
    function is 0 on every path. *)
Fixpoint _get_all_cc_capable_gpus (gpus : list string) (devs : list pci_device)
  : list string :=
  match devs with
  | [] => gpus
  | dev :: devs' =>
      if negb (String.eqb (vendor dev) "0x10de")
      then _get_all_cc_capable_gpus gpus devs'
      else if negb (String.eqb (class dev) "0x030000")
              && negb (String.eqb (class dev) "0x030200")
      then _get_all_cc_capable_gpus gpus devs'
      else if negb (_array_contains gpus (bdf dev) =? 0)
      then _get_all_cc_capable_gpus (gpus ++ [bdf dev]) devs'
      else _get_all_cc_capable_gpus gpus devs'
  end.

End Discovery.

Module Commands.
Import Shell Script.
Local Open Scope sh_scope.

(** The variables set from the command line. *)
Record options : Type := Options {
  DEVICE_ID : string;
  ALL_DEVICES : string
}.

(** [usage]: the text goes to standard error and the script ends with
    status 0. *)
Definition usage {A} : sh A := exit 0.


(** [handle_get_cc_mode]: exit status and the lines written to standard
    output. *)
Definition handle_get_cc_mode (v : vars) (o : options) : sh (Z * list string) :=
  if negb (String.eqb (DEVICE_ID o) "") then
    g <- get_gpu_cc_mode (DEVICE_ID o) ;;
    ret (fst g, [snd g])
  else if String.eqb (ALL_DEVICES o) "true" then get_cc_mode v
  else usage.

End Commands.

(** ** More ways to read histories and schedules *)

Module Readings.
Import Parse Shell Script.

(** A label without the marker and without underscores. *)
Definition plain (value : string) : Prop :=
  Text.contains Coordinator.PAUSED_STR value = false /\
  Text.has_char "_" value = false.

(** A fetched label that the rescheduling writes back as it is: it is
    [plain], the unquoted expansion passes it on whole, and [echo] does not
    take it for options. *)
Definition restorable (value : string) : Prop :=
  plain value /\ is_literal value = true /\ Text.echo_option value = false.

(** Output that [echo $output] writes as its words joined by blanks: ASCII
    text without pattern character whose first word is no option of
    [echo]. *)
Definition echoed_as_words (output : string) : Prop :=
  is_text output = true /\ Text.echo_option (hd "" (words output)) = false.

(** The three modes [_is_valid_mode] accepts. *)
Definition valid_mode (mode : string) : Prop :=
  mode = "on" \/ mode = "off" \/ mode = "devtools".


Definition is_gpu (v : vars) (gpu : string) : bool :=
  existsb (String.eqb gpu) (gpus v).

(** A command on a device of [gpus], a switch being one to [CC_MODE]; or a
    [kubectl] command. *)
Definition in_scope (v : vars) (c : call) : bool :=
  match c with
  | QueryCCMode g | DriverExists g | WriteUnbind g | WriteDriverOverride g =>
      is_gpu v g
  | SetCCModeAndReset m g => String.eqb m (CC_MODE v) && is_gpu v g
  | KubectlLabel _ | KubectlWaitDelete _ => true
  end.

(** The five kinds of [_evict_gpu_operator_components], in the order of
    their waits: the fetched label and the [app] label of the pods. *)
Definition kinds (v : vars) : list (string * string) :=
  [ (VFIO_MANAGER_DEPLOYED v, "nvidia-vfio-manager");
    (VGPU_MANAGER_DEPLOYED v, "nvidia-vgpu-manager");
    (SANDBOX_VALIDATOR_DEPLOYED v, "nvidia-sandbox-validator");
    (SANDBOX_PLUGIN_DEPLOYED v, "nvidia-sandbox-device-plugin-daemonset");
    (VGPU_DEVICE_MANAGER_DEPLOYED v, "nvidia-vgpu-device-manager") ].

(** The [app] labels of the kinds whose fetched label is not empty. *)
Definition awaited (v : vars) : list string :=
  map snd (List.filter (fun k => negb (String.eqb (fst k) "")) (kinds v)).

(** The last answer to a query of [gpu] in a history. *)
Definition last_query (gpu : string) (t : history) : option resp :=
  fold_left
    (fun acc (e : event) =>
       match fst e with
       | QueryCCMode g => if String.eqb g gpu then Some (snd e) else acc
       | _ => acc
       end)
    t None.

(** Every last answer of a history reports [mode]. *)
Definition settled (mode : string) (t : history) : Prop :=
  forall gpu q, last_query gpu t = Some q -> reports q mode = true.

(** A node on which the hardware tool cannot be run. *)
Definition tool_missing : environment :=
  Node.faulty (fun _ c =>
                 match c with
                 | QueryCCMode _ => Some (Resp 1 "no such device")
                 | _ => None
                 end)
              (Node.healthy Node.all_off).

(** The update of the status label to [success]. *)
Definition success_label : call := KubectlLabel [(STATE_LABEL, "success")].

(** The last line [get_cc_mode] writes when it returns 0. *)
Definition summary (mode : string) : string :=
  "current cc mode of all supported gpus is " +:+ mode.

(** The two tests [_get_all_cc_capable_gpus] makes on an entry. *)
Definition is_candidate (dev : Discovery.pci_device) : bool :=
  String.eqb (Discovery.vendor dev) "0x10de" &&
  (String.eqb (Discovery.class dev) "0x030000"
   || String.eqb (Discovery.class dev) "0x030200").

(** A blank occurs in [s]. *)
Fixpoint has_blank (s : string) : bool :=
  match s with
  | EmptyString => false
  | String a s' => is_blank a || has_blank s'
  end.

(** A device id as [_populate_cc_capable_device_ids] keeps it: not empty,
    without a comma and without a blank. *)
Definition is_id (id : string) : Prop :=
  id <> "" /\ Text.has_char "," id = false /\ has_blank id = false.

(** The number of [Set] calls of a schedule. *)
Definition count_sets (ls : list Watcher.label) : nat :=
  length (List.filter (fun l => match l with Watcher.CallSet _ => true | _ => false end) ls).

(** A value is waiting for the reader: it was awoken, or [current] differs
    from [lastRead]. *)
Definition pending (s : Watcher.state) : nat :=
  match Watcher.rd s with
  | Watcher.Awoken => 1
  | _ =>
      if String.eqb (Watcher.lastRead (Watcher.config s))
                    (Watcher.current (Watcher.config s))
      then 0 else 1
  end.

(** The test [_array_contains device_ids "$device_id"] of
    [_is_cc_capable_gpu] on the device id of an entry.  The script defines
    [_is_cc_capable_gpu] and never calls it. *)
Definition in_allow_list (device_ids : list string)
  (dev : Discovery.pci_device) : bool :=
  Discovery._array_contains device_ids (Discovery.device dev) =? 0.

(** The variables once [_get_all_cc_capable_gpus] has filled the empty
    array [gpus] from the entries [devs]. *)
Definition discovered (devs : list Discovery.pci_device) (v : vars) : vars :=
  {| CC_MODE := CC_MODE v;
     gpus := Discovery._get_all_cc_capable_gpus [] devs;
     VFIO_MANAGER_DEPLOYED := VFIO_MANAGER_DEPLOYED v;
     VGPU_MANAGER_DEPLOYED := VGPU_MANAGER_DEPLOYED v;
     SANDBOX_VALIDATOR_DEPLOYED := SANDBOX_VALIDATOR_DEPLOYED v;
     SANDBOX_PLUGIN_DEPLOYED := SANDBOX_PLUGIN_DEPLOYED v;
     VGPU_DEVICE_MANAGER_DEPLOYED := VGPU_DEVICE_MANAGER_DEPLOYED v |}.

(** A node whose only NVIDIA display controller has the device id 0x1eb8. *)
Definition unlisted_gpu : list Discovery.pci_device :=
  [ Discovery.PciDevice "0000:61:00.0" "0x10de" "0x030000" "0x1eb8" ].

(** A node with a display controller of another vendor, an NVIDIA 3D
    controller, an NVIDIA audio function and an NVIDIA VGA controller whose
    device id is in no allow-list. *)
Definition sample_devices : list Discovery.pci_device :=
  [ Discovery.PciDevice "0000:00:02.0" "0x8086" "0x030000" "0x3e92";
    Discovery.PciDevice "0000:41:00.0" "0x10de" "0x030200" "0x2331";
    Discovery.PciDevice "0000:41:00.1" "0x10de" "0x040300" "0x22ba";
    Discovery.PciDevice "0000:61:00.0" "0x10de" "0x030000" "0x1234" ].

End Readings.

(** ** cmd/main.go: the handlers of the informer *)

Module Informer.
Import Watcher Main.

(** A node object, as far as the handlers look at it: its labels. *)
Definition node : Type := gmap string string.

(** The expression [Labels[CCModeConfigLabel]] on a node object: the empty
    string when the node has no such label. *)
Definition label_of (obj : node) : string :=
  fst (map_index obj CCModeConfigLabel).

(** [AddFunc] *)
Definition AddFunc (obj : node) (s : state) : state :=
  Set_ (label_of obj) s.

(** [UpdateFunc] *)
Definition UpdateFunc (oldObj newObj : node) (s : state) : state :=
  let oldLabel := label_of oldObj in
  let newLabel := label_of newObj in
  if negb (String.eqb oldLabel newLabel) then Set_ newLabel s else s.

(** The notifications of the informer for a node seen first as [obj] and
    then in the versions [versions]: one call of [AddFunc], then a call of
    [UpdateFunc] for every version, with the version before it. *)
Fixpoint updates (obj : node) (versions : list node) (s : state) : state :=
  match versions with
  | [] => s
  | newObj :: versions' => updates newObj versions' (UpdateFunc obj newObj s)
  end.

Definition notify (obj : node) (versions : list node) (s : state) : state :=
  updates obj versions (AddFunc obj s).

End Informer.

(** * Properties *)

(** ** Text utilities *)

Section TextFacts.
Import Text.

Lemma append_empty_l (s : string) : "" +:+ s = s.
Proof. reflexivity. Qed.

Lemma append_String_l (a : ascii) (s1 s2 : string) :
  String a s1 +:+ s2 = String a (s1 +:+ s2).
Proof. reflexivity. Qed.

Lemma length_app (s1 s2 : string) :
  String.length (s1 +:+ s2) = (String.length s1 + String.length s2)%nat.
Proof. induction s1 as [|a s1 IH]; simpl; [reflexivity | now rewrite IH]. Qed.

Lemma prefix_refl (s : string) : String.prefix s s = true.
Proof.
  induction s as [|a s IH]; simpl; [reflexivity|].
  destruct (ascii_dec a a); [exact IH | congruence].
Qed.

Lemma drop_chars_all (s : string) : drop_chars (String.length s) s = "".
Proof. induction s as [|a s IH]; simpl; [reflexivity | exact IH]. Qed.

(** A pattern that does not use the separator [sep] cannot reach across it. *)
Lemma prefix_before_sep (pat x rest : string) (sep : ascii) :
  has_char sep pat = false ->
  String.prefix pat (x +:+ String sep rest) = true ->
  String.prefix pat x = true.
Proof.
  revert x. induction pat as [|p pat IH]; intros x Hsep Hpre.
  - destruct x; reflexivity.
  - simpl in Hsep. apply orb_false_elim in Hsep as [Hp Hsep].
    destruct x as [|a x]; simpl in *.
    + destruct (ascii_dec p sep) as [->|]; [|discriminate].
      now rewrite Ascii.eqb_refl in Hp.
    + destruct (ascii_dec p a); [|discriminate]. now apply IH.
Qed.

Lemma sed_delete_all_from_empty (fuel : nat) (pat : string) :
  sed_delete_all_from fuel pat "" = "".
Proof. destruct fuel; reflexivity. Qed.

(** Removing the pattern from [x ++ sep ++ pat], when [x] is free of the
    pattern and the pattern of the separator, removes the final [pat]. *)
Lemma sed_delete_all_from_suffix (p : ascii) (pat x : string) (sep : ascii) :
  has_char sep (String p pat) = false ->
  contains (String p pat) x = false ->
  forall fuel,
    (String.length (x +:+ String sep (String p pat)) <= fuel)%nat ->
    sed_delete_all_from fuel (String p pat) (x +:+ String sep (String p pat))
    = x +:+ String sep "".
Proof.
  intros Hsep. induction x as [|a x IH]; intros Hx fuel Hfuel.
  - rewrite append_empty_l in *. cbn [String.length] in Hfuel.
    destruct fuel as [|[|fuel]]; [lia | lia |].
    cbn [sed_delete_all_from].
    assert (Hne : String.prefix (String p pat) (String sep (String p pat)) = false).
    { cbn [has_char] in Hsep. apply orb_false_elim in Hsep as [Hp _].
      cbn [String.prefix]. destruct (ascii_dec p sep) as [->|]; [|reflexivity].
      now rewrite Ascii.eqb_refl in Hp. }
    rewrite Hne, prefix_refl, drop_chars_all, sed_delete_all_from_empty.
    reflexivity.
  - cbn [contains] in Hx. apply orb_false_elim in Hx as [Hpre Hx].
    rewrite append_String_l in *. cbn [String.length] in Hfuel.
    destruct fuel as [|fuel]; [lia|].
    cbn [sed_delete_all_from].
    destruct (String.prefix (String p pat) (String a (x +:+ String sep (String p pat))))
      eqn:E.
    + apply (prefix_before_sep (String p pat) (String a x)) in E; [|exact Hsep].
      congruence.
    + rewrite append_String_l. f_equal. apply IH; [exact Hx | lia].
Qed.

Lemma length_drop_chars (n : nat) (s : string) :
  (String.length (drop_chars n s) <= String.length s)%nat.
Proof.
  revert s. induction n as [|n IH]; intros [|a s]; simpl; try lia.
  specialize (IH s). lia.
Qed.

(** For a pattern that is not empty the scan ends within [length s] steps:
    more fuel does not change the result. *)
Lemma sed_delete_all_from_enough (p : ascii) (pat : string) (fuel : nat) :
  forall s,
    (String.length s <= fuel)%nat ->
    sed_delete_all_from fuel (String p pat) s = sed_delete_all (String p pat) s.
Proof.
  unfold sed_delete_all.
  induction fuel as [fuel IH] using lt_wf_ind. intros s Hs.
  destruct s as [|c s]; [now destruct fuel|].
  destruct fuel as [|fuel]; [simpl in Hs; lia|].
  cbn [String.length sed_delete_all_from].
  destruct (String.prefix (String p pat) (String c s)).
  - cbn [drop_chars String.length].
    pose proof (length_drop_chars (String.length pat) s) as Hd.
    simpl in Hs.
    rewrite (IH fuel) by lia.
    now rewrite (IH (String.length s)) by lia.
  - f_equal. simpl in Hs. rewrite (IH fuel) by lia. reflexivity.
Qed.

Lemma tr_delete_absent (c : ascii) (s : string) :
  has_char c s = false -> tr_delete c (s +:+ String c "") = s.
Proof.
  induction s as [|a s IH]; simpl; intros H.
  - now rewrite Ascii.eqb_refl.
  - apply orb_false_elim in H as [Ha Hs]. rewrite Ha. f_equal. now apply IH.
Qed.

Lemma has_char_app c s1 s2 :
  has_char c (s1 +:+ s2) = has_char c s1 || has_char c s2.
Proof.
  induction s1 as [|a s1 IH]; [reflexivity|]. rewrite append_String_l.
  simpl. rewrite IH. now rewrite orb_assoc.
Qed.

Lemma all_echo_flags_char (c : ascii) (s : string) :
  is_echo_flag c = false -> all_echo_flags s = true -> has_char c s = false.
Proof.
  intros Hc. induction s as [|a s IH]; [reflexivity|]. simpl.
  intros [Ha Hs]%andb_prop. rewrite (IH Hs), orb_false_r.
  destruct (Ascii.eqb_spec a c) as [->|_]; [congruence | reflexivity].
Qed.

(** A value [echo] takes for options is made of a dash and option letters. *)
Lemma echo_option_char (c : ascii) (s : string) :
  is_echo_flag c = false -> c <> "-"%char ->
  echo_option s = true -> has_char c s = false.
Proof.
  intros Hc Hd. destruct s as [|d [|a s]]; [discriminate | discriminate |].
  unfold echo_option. rewrite <- andb_assoc.
  intros [Hdash Ho]%andb_prop. apply Ascii.eqb_eq in Hdash. subst d.
  change (has_char c (String "-" (String a s)))
    with (Ascii.eqb "-" c || has_char c (String a s)).
  rewrite (all_echo_flags_char c (String a s) Hc Ho), orb_false_r.
  destruct (Ascii.eqb_spec "-"%char c) as [E|_]; [now subst | reflexivity].
Qed.

(** Nor does [echo] take a value with an underscore for options. *)
Lemma echo_option_underscore (s1 s2 : string) :
  echo_option (s1 +:+ String "_" s2) = false.
Proof.
  destruct (echo_option (s1 +:+ String "_" s2)) eqn:E; [|reflexivity].
  apply (echo_option_char "_") in E; [|reflexivity|discriminate].
  rewrite has_char_app in E. simpl in E. now rewrite orb_true_r in E.
Qed.

End TextFacts.

(** ** Parsing the output of the hardware tool *)

Section ParseFacts.
Import Parse.

Example parse_on :
  _parse_mode "2024-01-01 INFO GPU 0000:41:00.0 H100 CC mode is on" = (0, "on").
Proof. reflexivity. Qed.

Example parse_last_phrase :
  _parse_mode "CC mode is on now, GPU 0000:41:00.0 CC mode is devtools"
  = (0, "devtools").
Proof. reflexivity. Qed.

Example parse_unknown_token :
  fst (_parse_mode "GPU 0000:41:00.0 CC mode is enabled") = 1.
Proof. reflexivity. Qed.

Example parse_no_phrase : fst (_parse_mode "No GPU found") = 1.
Proof. reflexivity. Qed.

End ParseFacts.

(** ** The pause and resume transforms *)

Section CoordinatorFacts.
Import Text Coordinator.

Example pause_true : _maybe_set_paused "true" = PAUSED_STR.
Proof. reflexivity. Qed.

Example pause_pinned : _maybe_set_paused "v1.2" = "v1.2_paused-for-cc-mode-change".
Proof. reflexivity. Qed.

Example resume_pinned : _maybe_set_true "v1.2_paused-for-cc-mode-change" = "v1.2".
Proof. reflexivity. Qed.

(** Every underscore of a pinned value is deleted by the resume transform. *)
Example resume_pinned_underscore :
  _maybe_set_true (_maybe_set_paused "v1_2") = "v12".
Proof. reflexivity. Qed.

(** C2, as stated, fails at the bare paused marker: pausing leaves it
    unchanged, and resuming turns it into "true". *)
Lemma C2_counterexample :
  _maybe_set_true (_maybe_set_paused PAUSED_STR) <> PAUSED_STR.
Proof. vm_compute. discriminate. Qed.

(** C2, amended: for every component state that neither contains the paused
    marker nor an underscore (among them the empty string, "false" and
    "true"), resuming after pausing gives the value back. *)
Theorem C2_pause_resume_round_trip (value : string) :
  contains PAUSED_STR value = false ->
  has_char "_" value = false ->
  _maybe_set_true (_maybe_set_paused value) = value.
Proof.
  intros Hmarker Hunder. unfold _maybe_set_paused.
  destruct (String.eqb_spec value "") as [->|_]; [reflexivity|].
  destruct (String.eqb_spec value "false") as [->|_]; [reflexivity|].
  destruct (String.eqb_spec value "true") as [->|_]; [reflexivity|].
  rewrite Hmarker. unfold _maybe_set_true.
  assert (Hlen : String.length (value +:+ "_" +:+ PAUSED_STR)
                 = (String.length value + 26)%nat).
  { rewrite length_app. reflexivity. }
  destruct (String.eqb_spec (value +:+ "_" +:+ PAUSED_STR) "false") as [E|_].
  { rewrite E in Hlen. simpl in Hlen. lia. }
  destruct (String.eqb_spec (value +:+ "_" +:+ PAUSED_STR) PAUSED_STR) as [E|_].
  { rewrite E in Hlen. simpl in Hlen. lia. }
  change (value +:+ "_" +:+ PAUSED_STR)
    with (value +:+ String "_" PAUSED_STR).
  rewrite echo_option_underscore.
  unfold sed_delete_all.
  unfold PAUSED_STR at 1 2 3.
  rewrite sed_delete_all_from_suffix;
    [ now apply tr_delete_absent | reflexivity | exact Hmarker | lia ].
Qed.

Lemma C2_pause_resume_round_trip_witness :
  _maybe_set_true (_maybe_set_paused "v1.2") = "v1.2".
Proof.
  apply (C2_pause_resume_round_trip "v1.2"); reflexivity.
Defined.

End CoordinatorFacts.

(** ** The shape of the histories of the script *)

Section ScriptFacts.
Import Shell Script.
Local Open Scope sh_scope.
Variable v : vars.

Lemma all_calls_app P t1 t2 :
  all_calls P (t1 ++ t2) <-> all_calls P t1 /\ all_calls P t2.
Proof. apply Forall_app. Qed.

Lemma all_calls_weaken (P Q : call -> bool) t :
  (forall c, P c = true -> Q c = true) -> all_calls P t -> all_calls Q t.
Proof.
  intros HPQ Hall. eapply Forall_impl; [exact Hall|]. intros e. apply HPQ.
Qed.

Lemma all_calls_elem P t c r :
  all_calls P t -> (c, r) ∈ t -> P c = true.
Proof.
  intros Hall Hin. unfold all_calls in Hall. rewrite Forall_forall in Hall.
  exact (Hall _ Hin).
Qed.

Lemma emits_ret P Q {A} (a : A) : emits v P Q (ret a).
Proof.
  intros env h. exists []. simpl. split; [now rewrite app_nil_r | constructor].
Qed.

Lemma emits_run P Q c : P c = true -> emits v P Q (run c).
Proof.
  intros Hc env h. exists [(c, env h c)]. simpl. split; [reflexivity|].
  constructor; [exact Hc | constructor].
Qed.

Lemma emits_bind P Q {A B} (m : sh A) (k : A -> sh B) :
  (forall c, P c = true -> Q c = true) ->
  emits v P Q m -> (forall a, emits v P Q (k a)) -> emits v P Q (bind m k).
Proof.
  intros HPQ Hm Hk env h. unfold bind.
  destruct (Hm env h) as (t1 & Eh & Eo).
  destruct (m env h) as [[a|code] h1]; simpl in *; subst h1.
  - destruct (Hk a env (h ++ t1)) as (t2 & Eh2 & Eo2).
    exists (t1 ++ t2). rewrite Eh2, app_assoc. split; [reflexivity|].
    destruct (fst (k a env (h ++ t1))) as [b|code]; simpl in *.
    + apply all_calls_app. now split.
    + destruct Eo2 as (-> & t0 & r & -> & Ht0). split; [reflexivity|].
      exists (t1 ++ t0), r. rewrite app_assoc. split; [reflexivity|].
      apply all_calls_app. split; [|exact Ht0].
      now apply (all_calls_weaken P Q).
  - exists t1. now split.
Qed.

Lemma _exit_failed_eq {A} env h :
  @_exit_failed v A env h
  = (Exit 1, h ++ [(KubectlLabel (rescheduled_labels v),
                    env h (KubectlLabel (rescheduled_labels v)))]).
Proof.
  unfold _exit_failed, _reschedule_gpu_operator_components, bind, run, ret, exit.
  now destruct (negb _).
Qed.

Lemma emits_exit_failed P Q {A} : emits v P Q (@_exit_failed v A).
Proof.
  intros env h. rewrite _exit_failed_eq. simpl.
  eexists. split; [reflexivity|]. split; [reflexivity|].
  exists [], (env h (KubectlLabel (rescheduled_labels v))).
  split; [reflexivity | constructor].
Qed.

Ltac emits_step :=
  first
    [ apply emits_ret
    | apply emits_exit_failed
    | apply emits_run; reflexivity
    | apply emits_bind; [ | | intros ? ]
    | match goal with
      | |- emits _ _ _ (if ?b then _ else _) => destruct b
      | |- emits _ _ _ (let '(_, _) := ?x in _) => destruct x
      end ].

Lemma emits_assert_gpu gpu mode :
  emits v is_query is_query (_assert_gpu_cc_mode v gpu mode).
Proof. unfold _assert_gpu_cc_mode. repeat emits_step; auto. Qed.

Lemma emits_assert_loop mode gs :
  emits v is_query is_query (_assert_cc_mode_loop v mode gs).
Proof.
  induction gs as [|gpu gs IH]; simpl; [apply emits_ret|].
  apply emits_bind; [auto | apply emits_assert_gpu | intros a].
  destruct (negb _); [apply emits_ret | exact IH].
Qed.

Lemma is_device_call_loop c : is_device_call c = true -> is_loop_call c = true.
Proof. unfold is_loop_call. now intros ->. Qed.

Lemma emits_unbind gpu :
  emits v is_device_call is_loop_call (_unbind_device gpu).
Proof.
  unfold _unbind_device, _unbind_device_from_driver.
  repeat emits_step; auto using is_device_call_loop.
Qed.

Lemma emits_set_gpu gpu :
  emits v is_device_call is_loop_call (set_gpu_cc_mode v gpu).
Proof.
  unfold set_gpu_cc_mode, _assert_gpu_cc_mode.
  repeat emits_step; auto using is_device_call_loop.
Qed.

Lemma emits_run_exit_failed P Q {A} c :
  Q c = true -> emits v P Q (run c ;; @_exit_failed v A).
Proof.
  intros Hc env h. unfold bind, run. rewrite _exit_failed_eq. simpl.
  eexists [_; _]. split; [now rewrite <- app_assoc|]. split; [reflexivity|].
  eexists [_], _. split; [reflexivity|].
  constructor; [exact Hc | constructor].
Qed.

(** The body of the loop once the device is unbound with status [u]. *)
Lemma emits_body_unbound gpu (u : Z) :
  emits v is_device_call is_loop_call
    ((if negb (u =? 0) then _exit_failed v else ret tt) ;;
     s <- set_gpu_cc_mode v gpu ;;
     if negb (s =? 0) then
       run (KubectlLabel [(STATE_LABEL, "failed")]) ;;
       _exit_failed v
     else ret tt).
Proof.
  apply emits_bind; [apply is_device_call_loop | | intros _].
  { destruct (negb _); [apply emits_exit_failed | apply emits_ret]. }
  apply emits_bind; [apply is_device_call_loop | apply emits_set_gpu | intros s].
  destruct (negb _); [|apply emits_ret].
  now apply emits_run_exit_failed.
Qed.

Lemma emits_body gpu :
  emits v is_device_call is_loop_call (set_cc_mode_body v gpu).
Proof.
  unfold set_cc_mode_body.
  apply emits_bind; [apply is_device_call_loop | apply emits_unbind | intros u].
  apply emits_body_unbound.
Qed.

Lemma emits_loop gs :
  emits v is_device_call is_loop_call (set_cc_mode_loop v gs).
Proof.
  induction gs as [|gpu gs IH]; simpl; [apply emits_ret|].
  apply emits_bind; [apply is_device_call_loop | apply emits_body | intros _].
  exact IH.
Qed.

Lemma wait_for_shutdown_spec deployed app env h :
  exists tw,
    wait_for_shutdown deployed app env h = (Ret tt, h ++ tw) /\
    all_calls is_wait tw.
Proof.
  unfold wait_for_shutdown. destruct (negb _).
  - eexists [_]. split; [reflexivity|]. now repeat constructor.
  - exists []. split; [unfold ret; now rewrite app_nil_r | constructor].
Qed.

(** The eviction returns 1 exactly when its label update fails; whatever
    the waits answer, it returns 0 after them. *)
Lemma _evict_spec env h :
  let r := env h (KubectlLabel (paused_labels v)) in
  (status r <> 0 /\
   _evict_gpu_operator_components v env h
   = (Ret 1, h ++ [(KubectlLabel (paused_labels v), r)]))
  \/
  (status r = 0 /\
   exists tw,
     _evict_gpu_operator_components v env h
     = (Ret 0, h ++ (KubectlLabel (paused_labels v), r) :: tw) /\
     all_calls is_wait tw).
Proof.
  intros r. unfold _evict_gpu_operator_components, bind, run.
  cbv beta iota zeta. fold r.
  destruct (Z.eqb_spec (status r) 0) as [E|E]; cbn [negb]; cbv beta iota.
  2: { left. now split. }
  right. split; [exact E|].
  set (h1 := h ++ [(KubectlLabel (paused_labels v), r)]).
  destruct (wait_for_shutdown_spec (VFIO_MANAGER_DEPLOYED v)
              "nvidia-vfio-manager" env h1) as (t1 & -> & W1).
  destruct (wait_for_shutdown_spec (VGPU_MANAGER_DEPLOYED v)
              "nvidia-vgpu-manager" env (h1 ++ t1)) as (t2 & -> & W2).
  destruct (wait_for_shutdown_spec (SANDBOX_VALIDATOR_DEPLOYED v)
              "nvidia-sandbox-validator" env ((h1 ++ t1) ++ t2))
    as (t3 & -> & W3).
  destruct (wait_for_shutdown_spec (SANDBOX_PLUGIN_DEPLOYED v)
              "nvidia-sandbox-device-plugin-daemonset" env
              (((h1 ++ t1) ++ t2) ++ t3)) as (t4 & -> & W4).
  destruct (wait_for_shutdown_spec (VGPU_DEVICE_MANAGER_DEPLOYED v)
              "nvidia-vgpu-device-manager" env
              ((((h1 ++ t1) ++ t2) ++ t3) ++ t4)) as (t5 & -> & W5).
  exists (t1 ++ t2 ++ t3 ++ t4 ++ t5). split.
  - unfold ret, h1. f_equal. rewrite <- !app_assoc. reflexivity.
  - rewrite !all_calls_app. auto.
Qed.

(** Every run of [set_cc_mode] is one of the five cycles. *)
Lemma set_cc_mode_cycle env h :
  exists o t, set_cc_mode v env h = (o, h ++ t) /\ cycle v o t.
Proof.
  unfold set_cc_mode.
  destruct (length (gpus v) =? 0)%nat.
  { exists (Ret 0), []. unfold ret. split; [now rewrite app_nil_r|].
    apply cycle_nothing_to_do. constructor. }
  unfold bind at 1. unfold _assert_cc_mode.
  destruct (emits_assert_loop (CC_MODE v) (gpus v) env h) as (t & Eh & Eo).
  destruct (_assert_cc_mode_loop v (CC_MODE v) (gpus v) env h) as [[a|code] h1];
    simpl in Eh, Eo; subst h1.
  2: { destruct Eo as (-> & t0 & r & -> & Ht0). eexists _, _.
       split; [reflexivity|]. now apply cycle_query_failed. }
  destruct (a =? 0).
  { exists (Ret 0), t. split; [reflexivity | now apply cycle_nothing_to_do]. }
  unfold bind at 1.
  destruct (_evict_spec env (h ++ t)) as [(Hr & ->)|(Hr & tw & -> & Hw)];
    cbn [negb Z.eqb]; cbv beta iota.
  { eexists _, _. rewrite <- app_assoc. split; [reflexivity|].
    now apply cycle_pause_failed. }
  unfold bind at 1.
  set (h2 := (h ++ t) ++ _ :: tw).
  destruct (emits_loop (gpus v) env h2) as (tl & El & Ol).
  destruct (set_cc_mode_loop v (gpus v) env h2) as [[[]|code] h3];
    simpl in El, Ol; subst h3.
  2: { destruct Ol as (-> & t0 & r' & -> & Ht0).
       eexists _, _. unfold h2. rewrite <- !app_assoc. simpl.
       split; [reflexivity|]. now apply cycle_apply_failed. }
  unfold bind, run, _reschedule_gpu_operator_components, bind, run, ret.
  cbv beta iota zeta.
  set (h4 := h2 ++ tl).
  set (r1 := env h4 _).
  set (r2 := env (h4 ++ [(_, r1)]) _).
  exists (Ret (if status r2 =? 0 then 0 else 1)).
  eexists. split.
  - destruct (status r2 =? 0); cbn [negb]; unfold h4, h2;
      rewrite <- !app_assoc; simpl; reflexivity.
  - now apply cycle_applied.
Qed.

End ScriptFacts.

(** ** The cycle: eviction, status label, rescheduling *)

Section CycleFacts.
Import Shell Script Node.
Local Open Scope sh_scope.

Lemma paused_not_rescheduled v : paused_labels v <> rescheduled_labels v.
Proof. unfold paused_labels, rescheduled_labels. intros E. discriminate E. Qed.

Lemma paused_event_not_rescheduled v (r r' : resp) :
  (KubectlLabel (paused_labels v), r)
  <> (KubectlLabel (rescheduled_labels v), r').
Proof. intros E. apply (paused_not_rescheduled v). congruence. Qed.

Lemma status_writes_app t1 t2 :
  status_writes (t1 ++ t2) = status_writes t1 ++ status_writes t2.
Proof. unfold status_writes. now rewrite flat_map_app. Qed.

Lemma status_writes_all (P : call -> bool) (Q : string -> Prop) t :
  (forall c, P c = true -> Forall Q (call_writes c)) ->
  all_calls P t -> Forall Q (status_writes t).
Proof.
  intros HP. induction 1 as [|e t He _ IH]; simpl; [constructor|].
  apply Forall_app. split; [now apply HP | exact IH].
Qed.

Lemma status_writes_none (P : call -> bool) t :
  (forall c, P c = true -> call_writes c = []) ->
  all_calls P t -> status_writes t = [].
Proof.
  intros HP. induction 1 as [|e t He _ IH]; simpl; [reflexivity|].
  now rewrite (HP _ He), IH.
Qed.

Lemma query_writes c : is_query c = true -> call_writes c = [].
Proof. now destruct c. Qed.

Lemma wait_writes c : is_wait c = true -> call_writes c = [].
Proof. now destruct c. Qed.

Lemma device_call_writes c : is_device_call c = true -> call_writes c = [].
Proof. now destruct c. Qed.

Lemma failed_label_writes c : is_failed_label c = true -> call_writes c = ["failed"].
Proof.
  destruct c as [| | | | |labels|]; try discriminate.
  destruct labels as [|[key value] [|]]; try discriminate. simpl.
  intros [Hk Hv]%andb_prop.
  apply String.eqb_eq in Hk, Hv. now subst.
Qed.

Lemma loop_call_writes c :
  is_loop_call c = true -> Forall (fun x => x = "failed") (call_writes c).
Proof.
  unfold is_loop_call. intros [H|H]%orb_prop.
  - rewrite device_call_writes by exact H. constructor.
  - rewrite failed_label_writes by exact H. now repeat constructor.
Qed.

(** The label update of the eviction is none of the other commands. *)
Lemma paused_not_in (P : call -> bool) v r t :
  P (KubectlLabel (paused_labels v)) = false ->
  all_calls P t -> (KubectlLabel (paused_labels v), r) ∉ t.
Proof.
  intros HP Hall Hin. apply (all_calls_elem _ _ _ _ Hall) in Hin. congruence.
Qed.

(** The answer to the label update of the eviction, read off a cycle. *)
Lemma cycle_paused v o t r :
  cycle v o t ->
  (KubectlLabel (paused_labels v), r) ∈ t ->
  exists t0 t1,
    t = t0 ++ (KubectlLabel (paused_labels v), r) :: t1 /\
    all_calls is_query t0 /\
    (status r <> 0 -> o = Ret 1 /\ t1 = []) /\
    (status r = 0 ->
     exists t2 r',
       t1 = t2 ++ [(KubectlLabel (rescheduled_labels v), r')] /\
       ((o = Exit 1 /\ Forall (fun x => x = "failed") (status_writes t2)) \/
        ((o = Ret 0 \/ o = Ret 1) /\ status_writes t2 = ["success"]))).
Proof.
  intros Hc Hin. destruct Hc as [t Hq|t r0 Hq|t r0 Hq Hr|t r0 tw tl r' Hq Hr Hw Hl
                                |t r0 tw tl r1 r2 Hq Hr Hw Hl].
  - now apply (paused_not_in is_query) in Hin.
  - apply elem_of_app in Hin as [Hin|Hin].
    + now apply (paused_not_in is_query) in Hin.
    + apply list_elem_of_singleton in Hin.
      now apply paused_event_not_rescheduled in Hin.
  - apply elem_of_app in Hin as [Hin|Hin].
    + now apply (paused_not_in is_query) in Hin.
    + apply list_elem_of_singleton in Hin. injection Hin as ->.
      exists t, []. repeat split; auto. intros E. congruence.
  - apply elem_of_app in Hin as [Hin|Hin].
    { now apply (paused_not_in is_query) in Hin. }
    apply elem_of_cons in Hin as [Hin|Hin].
    2: { exfalso. apply elem_of_app in Hin as [Hin|Hin].
         { now apply (paused_not_in is_wait) in Hin. }
         apply elem_of_app in Hin as [Hin|Hin].
         { now apply (paused_not_in is_loop_call) in Hin. }
         apply list_elem_of_singleton in Hin.
         now apply paused_event_not_rescheduled in Hin. }
    injection Hin as ->.
    exists t, (tw ++ tl ++ [(KubectlLabel (rescheduled_labels v), r')]).
    repeat split; auto; try congruence.
    intros _. exists (tw ++ tl), r'. split; [now rewrite <- app_assoc|].
    left. split; [reflexivity|]. rewrite status_writes_app.
    rewrite (status_writes_none is_wait tw wait_writes Hw). simpl.
    now apply (status_writes_all is_loop_call _ tl loop_call_writes).
  - apply elem_of_app in Hin as [Hin|Hin].
    { now apply (paused_not_in is_query) in Hin. }
    apply elem_of_cons in Hin as [Hin|Hin].
    2: { exfalso. apply elem_of_app in Hin as [Hin|Hin].
         { now apply (paused_not_in is_wait) in Hin. }
         apply elem_of_app in Hin as [Hin|Hin].
         { now apply (paused_not_in is_device_call) in Hin. }
         apply elem_of_cons in Hin as [Hin|Hin]; [discriminate Hin|].
         apply list_elem_of_singleton in Hin.
         now apply paused_event_not_rescheduled in Hin. }
    injection Hin as ->.
    eexists t, _. repeat split; eauto; try congruence.
    intros _.
    exists (tw ++ tl ++ [(KubectlLabel [(STATE_LABEL, "success")], r1)]), r2.
    split; [now rewrite <- !app_assoc|].
    right. split; [destruct (status r2 =? 0); auto|].
    rewrite !status_writes_app.
    rewrite (status_writes_none is_wait tw wait_writes Hw).
    rewrite (status_writes_none is_device_call tl device_call_writes Hl).
    reflexivity.
Qed.

Lemma status_writes_Forall (Q : string -> Prop) t :
  Forall (fun e : event => Forall Q (call_writes (fst e))) t ->
  Forall Q (status_writes t).
Proof.
  induction 1 as [|e t He _ IH]; simpl; [constructor|].
  apply Forall_app. now split.
Qed.

Lemma segment_writes (P : call -> bool) (Q : string -> Prop) t :
  (forall c, P c = true -> Forall Q (call_writes c)) ->
  all_calls P t ->
  Forall (fun e : event => Forall Q (call_writes (fst e))) t.
Proof.
  intros HP Hall. eapply Forall_impl; [exact Hall|]. intros e. apply HP.
Qed.

Lemma no_writes_any (P : call -> bool) (Q : string -> Prop) :
  (forall c, P c = true -> call_writes c = []) ->
  forall c, P c = true -> Forall Q (call_writes c).
Proof. intros HP c Hc. rewrite (HP c Hc). constructor. Qed.

Lemma cycle_status_writes v o t :
  cycle v o t ->
  Forall (fun x => x = "success" \/ x = "failed") (status_writes t).
Proof.
  set (Q := fun x : string => x = "success" \/ x = "failed").
  assert (Hquery := segment_writes is_query Q).
  assert (Hwait := segment_writes is_wait Q).
  assert (Hdevice := segment_writes is_device_call Q).
  assert (Hloop : forall c, is_loop_call c = true -> Forall Q (call_writes c)).
  { intros c Hc. eapply Forall_impl; [exact (loop_call_writes c Hc)|].
    intros x ->. now right. }
  intros Hc. apply status_writes_Forall.
  destruct Hc as [t Hq|t r Hq|t r Hq Hr|t r tw tl r' Hq Hr Hw Hl
                 |t r tw tl r1 r2 Hq Hr Hw Hl];
    repeat first
      [ apply Forall_app; split
      | apply Forall_cons; split
      | apply Forall_nil; exact I
      | apply Hquery; [apply no_writes_any, query_writes | assumption]
      | apply Hwait; [apply no_writes_any, wait_writes | assumption]
      | apply Hdevice; [apply no_writes_any, device_call_writes | assumption]
      | apply (segment_writes is_loop_call Q); [exact Hloop | assumption] ];
    try (simpl; now constructor).
Qed.

(** Scenario A: no device is discovered; the cycle returns 0 and runs no
    command. *)
Example scenario_no_device :
  set_cc_mode (no_gpu "on") (healthy all_off) [] = (Ret 0, []).
Proof. reflexivity. Qed.

(** Scenario B, on one device: the components are paused, the device is
    unbound and switched from "on" to "off", the status label is written and
    the components are rescheduled with their original values. *)
Example scenario_switch_off :
  set_cc_mode (one_gpu "off") (healthy all_on) []
  = (Ret 0,
     [ (QueryCCMode "0000:41:00.0", Resp 0 "GPU 0000:41:00.0 CC mode is on");
       (KubectlLabel
          [ ("nvidia.com/gpu.deploy.vfio-manager", "paused-for-cc-mode-change");
            ("nvidia.com/gpu.deploy.vgpu-manager", "");
            ("nvidia.com/gpu.deploy.sandbox-device-plugin", "");
            ("nvidia.com/gpu.deploy.sandbox-validator", "");
            ("nvidia.com/gpu.deploy.vgpu-device-manager", "") ],
        Resp 0 "");
       (KubectlWaitDelete "nvidia-vfio-manager", Resp 0 "");
       (DriverExists "0000:41:00.0", Resp 0 "");
       (WriteUnbind "0000:41:00.0", Resp 0 "");
       (WriteDriverOverride "0000:41:00.0", Resp 0 "");
       (QueryCCMode "0000:41:00.0", Resp 0 "GPU 0000:41:00.0 CC mode is on");
       (SetCCModeAndReset "off" "0000:41:00.0", Resp 0 "");
       (QueryCCMode "0000:41:00.0", Resp 0 "GPU 0000:41:00.0 CC mode is off");
       (KubectlLabel [("nvidia.com/cc.mode.state", "success")], Resp 0 "");
       (KubectlLabel
          [ ("nvidia.com/gpu.deploy.vfio-manager", "true");
            ("nvidia.com/gpu.deploy.vgpu-manager", "");
            ("nvidia.com/gpu.deploy.sandbox-validator", "");
            ("nvidia.com/gpu.deploy.sandbox-device-plugin", "");
            ("nvidia.com/gpu.deploy.vgpu-device-manager", "") ],
        Resp 0 "") ]).
Proof. vm_compute. reflexivity. Qed.

Ltac find_event :=
  apply list_elem_of_In; vm_compute;
  repeat (first [left; reflexivity | right]).

(** C1, as stated, fails when an eviction wait times out: the exit status
    of [kubectl wait] is not examined, the devices are unbound and switched
    and the status label is written. *)
Lemma C1_counterexample :
  set_cc_mode (one_gpu "on") eviction_times_out []
  = (Ret 0,
     [ (QueryCCMode "0000:41:00.0", Resp 0 "GPU 0000:41:00.0 CC mode is off");
       (KubectlLabel (paused_labels (one_gpu "on")), Resp 0 "");
       (KubectlWaitDelete "nvidia-vfio-manager",
        Resp 1 "error: timed out waiting for the condition");
       (DriverExists "0000:41:00.0", Resp 0 "");
       (WriteUnbind "0000:41:00.0", Resp 0 "");
       (WriteDriverOverride "0000:41:00.0", Resp 0 "");
       (QueryCCMode "0000:41:00.0", Resp 0 "GPU 0000:41:00.0 CC mode is off");
       (SetCCModeAndReset "on" "0000:41:00.0", Resp 0 "");
       (QueryCCMode "0000:41:00.0", Resp 0 "GPU 0000:41:00.0 CC mode is on");
       (KubectlLabel [(STATE_LABEL, "success")], Resp 0 "");
       (KubectlLabel (rescheduled_labels (one_gpu "on")), Resp 0 "") ]).
Proof. vm_compute. reflexivity. Qed.

(** C1, amended: when the label update of the eviction fails, the cycle
    returns 1 after the queries of the assertion and that update alone: no
    device is touched and no status label is written.  The exit status of
    the eviction waits is not examined: once the label update has succeeded
    the eviction returns 0, whatever the waits answer. *)
Theorem C1_eviction_failure v env :
  (forall r,
     (KubectlLabel (paused_labels v), r) ∈ trace (set_cc_mode v) env ->
     status r <> 0 ->
     result (set_cc_mode v) env = Ret 1 /\
     (exists t,
        trace (set_cc_mode v) env = t ++ [(KubectlLabel (paused_labels v), r)] /\
        all_calls is_query t) /\
     Forall (fun e : event => is_device_mutation (fst e) = false)
            (trace (set_cc_mode v) env) /\
     status_writes (trace (set_cc_mode v) env) = [])
  /\
  (forall h,
     status (env h (KubectlLabel (paused_labels v))) = 0 ->
     fst (_evict_gpu_operator_components v env h) = Ret 0).
Proof.
  split.
  - intros r Hin Hr. unfold trace, result in *.
    destruct (set_cc_mode_cycle v env []) as (o & t & E & Hc).
    rewrite E in *. simpl in *.
    destruct (cycle_paused v o t r Hc Hin) as (t0 & t1 & -> & Hq & Hfail & _).
    destruct (Hfail Hr) as [-> ->].
    split; [reflexivity|]. split; [now exists t0|]. split.
    + apply Forall_app. split.
      * eapply Forall_impl; [exact Hq|]. intros [c ?] Hc'. simpl in *.
        now destruct c.
      * now repeat constructor.
    + rewrite status_writes_app.
      now rewrite (status_writes_none is_query t0 query_writes Hq).
  - intros h Hr.
    destruct (_evict_spec v env h) as [(Hne & _)|(_ & tw & -> & _)];
      [contradiction | reflexivity].
Qed.

Lemma C1_eviction_failure_witness :
  result (set_cc_mode (one_gpu "on")) label_update_fails = Ret 1 /\
  fst (_evict_gpu_operator_components (one_gpu "on") eviction_times_out [])
  = Ret 0.
Proof.
  destruct (C1_eviction_failure (one_gpu "on") label_update_fails) as [H _].
  destruct (C1_eviction_failure (one_gpu "on") eviction_times_out) as [_ H'].
  split.
  - apply (H (Resp 1 "error: connection refused")); [find_event | discriminate].
  - apply H'. reflexivity.
Defined.

(** C3, as stated, fails on a cycle that switches its device to "on": the
    value written to the status label is "success". *)
Lemma C3_counterexample :
  result (set_cc_mode (one_gpu "on")) (healthy all_off) = Ret 0 /\
  status_writes (trace (set_cc_mode (one_gpu "on")) (healthy all_off))
  = ["success"].
Proof. vm_compute. split; reflexivity. Qed.

(** C3, amended: every value a cycle writes to the status label is
    "success" or "failed"; a cycle that evicts the components and returns 0
    writes the status label once, with the value "success". *)
Theorem C3_status_label_values v env :
  Forall (fun x => x = "success" \/ x = "failed")
         (status_writes (trace (set_cc_mode v) env)) /\
  (forall r,
     (KubectlLabel (paused_labels v), r) ∈ trace (set_cc_mode v) env ->
     result (set_cc_mode v) env = Ret 0 ->
     status_writes (trace (set_cc_mode v) env) = ["success"]).
Proof.
  unfold trace, result.
  destruct (set_cc_mode_cycle v env []) as (o & t & E & Hc).
  rewrite E. simpl. split; [now apply (cycle_status_writes v o)|].
  intros r Hin ->.
  destruct (cycle_paused v _ t r Hc Hin) as (t0 & t1 & -> & Hq & Hfail & Hok).
  destruct (Z.eq_dec (status r) 0) as [Hr|Hr].
  - destruct (Hok Hr) as (t2 & r' & -> & [[? _]|[_ Hw]]); [discriminate|].
    rewrite status_writes_app.
    rewrite (status_writes_none is_query t0 query_writes Hq).
    change (status_writes (?e :: ?l))
      with (call_writes (fst e) ++ status_writes l).
    rewrite status_writes_app, Hw. reflexivity.
  - destruct (Hfail Hr) as [? _]. discriminate.
Qed.

Lemma C3_status_label_values_witness :
  status_writes (trace (set_cc_mode (two_gpus "on")) (healthy all_off))
  = ["success"].
Proof.
  destruct (C3_status_label_values (two_gpus "on") (healthy all_off)) as [_ H].
  apply (H (Resp 0 "")); [find_event | reflexivity].
Defined.

(** C4, as stated, fails when the label update of the eviction itself
    fails: the update was issued, the cycle returns 1 and no rescheduling
    update follows. *)
Lemma C4_counterexample :
  set_cc_mode (one_gpu "on") label_update_fails []
  = (Ret 1,
     [ (QueryCCMode "0000:41:00.0", Resp 0 "GPU 0000:41:00.0 CC mode is off");
       (KubectlLabel (paused_labels (one_gpu "on")),
        Resp 1 "error: connection refused") ]).
Proof. vm_compute. reflexivity. Qed.

(** C4, amended: in every cycle whose label update of the eviction
    succeeds, the last command of the cycle is the rescheduling label update
    for the five kinds, on the path that completes the loop and on every
    path that leaves it. *)
Theorem C4_reschedule_after_evict v env r :
  (KubectlLabel (paused_labels v), r) ∈ trace (set_cc_mode v) env ->
  status r = 0 ->
  exists t r',
    trace (set_cc_mode v) env
    = t ++ [(KubectlLabel (rescheduled_labels v), r')].
Proof.
  intros Hin Hr. unfold trace in *.
  destruct (set_cc_mode_cycle v env []) as (o & t & E & Hc).
  rewrite E in *. simpl in *.
  destruct (cycle_paused v o t r Hc Hin) as (t0 & t1 & -> & _ & _ & Hok).
  destruct (Hok Hr) as (t2 & r' & -> & _).
  exists (t0 ++ (KubectlLabel (paused_labels v), r) :: t2), r'.
  now rewrite <- app_assoc.
Qed.

Lemma C4_reschedule_after_evict_witness :
  exists t r',
    trace (set_cc_mode (two_gpus "on")) switch_has_no_effect
    = t ++ [(KubectlLabel (rescheduled_labels (two_gpus "on")), r')].
Proof.
  apply (C4_reschedule_after_evict (two_gpus "on") switch_has_no_effect
           (Resp 0 "")); [find_event | reflexivity].
Defined.

End CycleFacts.

(** ** The per-device applier and the loop over the devices *)

Section ApplierFacts.
Import Parse Shell Script Node.
Local Open Scope sh_scope.

Lemma _assert_gpu_cc_mode_answered v env gpu mode h :
  let q := env h (QueryCCMode gpu) in
  status q = 0 ->
  _assert_gpu_cc_mode v gpu mode env h
  = (Ret (if reports q mode then 0 else 1), h ++ [(QueryCCMode gpu, q)]).
Proof.
  intros q Hq. unfold _assert_gpu_cc_mode, reports, bind, run, ret.
  cbv beta iota zeta. fold q. rewrite Hq. cbn [Z.eqb negb andb].
  destruct (_parse_mode (output q)) as [st current_mode].
  destruct (st =? 0); cbn [negb andb]; [|reflexivity].
  now destruct (String.eqb current_mode mode).
Qed.

Lemma _assert_gpu_cc_mode_unanswered v env gpu mode h :
  let q := env h (QueryCCMode gpu) in
  let h1 := h ++ [(QueryCCMode gpu, q)] in
  status q <> 0 ->
  _assert_gpu_cc_mode v gpu mode env h
  = (Exit 1, h1 ++ [(KubectlLabel (rescheduled_labels v),
                     env h1 (KubectlLabel (rescheduled_labels v)))]).
Proof.
  intros q h1 Hq. unfold _assert_gpu_cc_mode, bind at 1.
  unfold run at 1. cbv beta iota zeta. fold q. fold h1.
  apply Z.eqb_neq in Hq. unfold bind. rewrite Hq. cbn [negb].
  now rewrite _exit_failed_eq.
Qed.


Lemma set_cc_mode_loop_app v env pre gs h :
  set_cc_mode_loop v (pre ++ gs) env h
  = match set_cc_mode_loop v pre env h with
    | (Ret _, h1) => set_cc_mode_loop v gs env h1
    | (Exit code, h1) => (Exit code, h1)
    end.
Proof.
  revert h. induction pre as [|gpu pre IH]; intros h; [reflexivity|].
  simpl. unfold bind.
  destruct (set_cc_mode_body v gpu env h) as [[[]|code] h1]; [|reflexivity].
  apply IH.
Qed.

(** C5, as stated, fails when the query of the hardware tool cannot be run
    inside the loop: the cycle issues the rescheduling update and exits with
    status 1, but the status label is not written. *)
Lemma C5_counterexample :
  set_cc_mode (one_gpu "on") query_fails_after_pause []
  = (Exit 1,
     [ (QueryCCMode "0000:41:00.0", Resp 0 "GPU 0000:41:00.0 CC mode is off");
       (KubectlLabel (paused_labels (one_gpu "on")), Resp 0 "");
       (KubectlWaitDelete "nvidia-vfio-manager", Resp 0 "");
       (DriverExists "0000:41:00.0", Resp 0 "");
       (WriteUnbind "0000:41:00.0", Resp 0 "");
       (WriteDriverOverride "0000:41:00.0", Resp 0 "");
       (QueryCCMode "0000:41:00.0",
        Resp 1 "gpu_cc_tool.py: cannot access device");
       (KubectlLabel (rescheduled_labels (one_gpu "on")), Resp 0 "") ]).
Proof. vm_compute. reflexivity. Qed.

(** How [set_gpu_cc_mode] ends when the first query is answered and does
    not report the desired mode, and the switch succeeds. *)
Lemma set_gpu_cc_mode_requery v env gpu h :
  let mode := CC_MODE v in
  let q := env h (QueryCCMode gpu) in
  let hq := h ++ [(QueryCCMode gpu, q)] in
  let s := env hq (SetCCModeAndReset mode gpu) in
  let hs := hq ++ [(SetCCModeAndReset mode gpu, s)] in
  status q = 0 -> reports q mode = false -> status s = 0 ->
  set_gpu_cc_mode v gpu env h
  = match _assert_gpu_cc_mode v gpu mode env hs with
    | (Ret a, h') => (Ret (if a =? 0 then 0 else 1), h')
    | (Exit code, h') => (Exit code, h')
    end.
Proof.
  intros mode q hq s hs Hq Hr Hs. unfold set_gpu_cc_mode, bind. cbv zeta.
  rewrite (_assert_gpu_cc_mode_answered v env gpu (CC_MODE v) h Hq).
  fold q. fold mode. rewrite Hr. cbn [Z.eqb negb]. unfold run.
  cbv beta iota zeta. subst hs s hq. unfold event in *.
  rewrite Hs. cbn [Z.eqb negb].
  match goal with
  | |- context [_assert_gpu_cc_mode v gpu mode env ?x] =>
      destruct (_assert_gpu_cc_mode v gpu mode env x) as [[a|code] h'];
        [|reflexivity]
  end.
  now destruct (a =? 0).
Qed.

(** [set_gpu_cc_mode] leaves through [_exit_failed] only when one of its
    two queries cannot be run. *)
Lemma set_gpu_cc_mode_exits v env gpu h code h' :
  let mode := CC_MODE v in
  let q := env h (QueryCCMode gpu) in
  let hq := h ++ [(QueryCCMode gpu, q)] in
  let s := env hq (SetCCModeAndReset mode gpu) in
  let hs := hq ++ [(SetCCModeAndReset mode gpu, s)] in
  let q' := env hs (QueryCCMode gpu) in
  set_gpu_cc_mode v gpu env h = (Exit code, h') ->
  status q <> 0 \/
  (status q = 0 /\ reports q mode = false /\ status s = 0 /\ status q' <> 0).
Proof.
  intros mode q hq s hs q' E.
  destruct (Z.eq_dec (status q) 0) as [Hq|Hq]; [right | now left].
  split; [exact Hq|].
  destruct (reports q mode) eqn:Hr.
  { exfalso. revert E. unfold set_gpu_cc_mode, bind. cbv zeta.
    rewrite (_assert_gpu_cc_mode_answered v env gpu (CC_MODE v) h Hq).
    fold q. fold mode. now rewrite Hr. }
  split; [reflexivity|].
  destruct (Z.eq_dec (status s) 0) as [Hs|Hs].
  - split; [exact Hs|]. intros Hq'. revert E.
    rewrite (set_gpu_cc_mode_requery v env gpu h Hq Hr Hs).
    fold mode. fold q. fold hq. fold s. fold hs.
    now rewrite (_assert_gpu_cc_mode_answered v env gpu mode hs Hq').
  - exfalso. revert E. unfold set_gpu_cc_mode, bind. cbv zeta.
    rewrite (_assert_gpu_cc_mode_answered v env gpu (CC_MODE v) h Hq).
    fold q. fold mode. rewrite Hr. cbn [Z.eqb negb]. unfold run.
    cbv beta iota zeta. apply Z.eqb_neq in Hs.
    subst q' hs s hq. unfold event in *. now rewrite Hs.
Qed.

(** C5, amended: in the loop over the devices, after the devices [pre] have
    been applied and [gpu] unbound, a failure returned by [set_gpu_cc_mode]
    makes the cycle write "failed" to the status label, issue the
    rescheduling update and exit with status 1; the devices [rest] are not
    attempted.  When [set_gpu_cc_mode] itself leaves through [_exit_failed],
    one of its two queries could not be run: the query before the switch,
    or the query after a successful switch.  In both cases the loop ends
    behind that query with the rescheduling update and exit status 1, the
    devices [rest] are not attempted and no status is written.  The desired
    mode holds neither a blank nor a pattern character and the device is
    one argument. *)
Theorem C5_first_device_failure v env pre gpu rest h h1 h2 :
  is_literal (CC_MODE v) = true ->
  argument gpu ->
  set_cc_mode_loop v pre env h = (Ret tt, h1) ->
  _unbind_device gpu env h1 = (Ret 0, h2) ->
  let mode := CC_MODE v in
  let rescheduled (h' : history) : event :=
    (KubectlLabel (rescheduled_labels v),
     env h' (KubectlLabel (rescheduled_labels v))) in
  let q := env h2 (QueryCCMode gpu) in
  let hq := h2 ++ [(QueryCCMode gpu, q)] in
  let s := env hq (SetCCModeAndReset mode gpu) in
  let hs := hq ++ [(SetCCModeAndReset mode gpu, s)] in
  let q' := env hs (QueryCCMode gpu) in
  let hq' := hs ++ [(QueryCCMode gpu, q')] in
  (forall st h3,
     set_gpu_cc_mode v gpu env h2 = (Ret st, h3) ->
     set_cc_mode_loop v (pre ++ gpu :: rest) env h
     = if st =? 0 then set_cc_mode_loop v rest env h3
       else
         let failed :=
           (KubectlLabel [(STATE_LABEL, "failed")],
            env h3 (KubectlLabel [(STATE_LABEL, "failed")])) in
         (Exit 1, h3 ++ [failed; rescheduled (h3 ++ [failed])]))
  /\
  (status q <> 0 ->
   set_cc_mode_loop v (pre ++ gpu :: rest) env h
   = (Exit 1, hq ++ [rescheduled hq]))
  /\
  (status q = 0 -> reports q mode = false -> status s = 0 ->
   status q' <> 0 ->
   set_cc_mode_loop v (pre ++ gpu :: rest) env h
   = (Exit 1, hq' ++ [rescheduled hq']))
  /\
  (forall code h3,
     set_gpu_cc_mode v gpu env h2 = (Exit code, h3) ->
     status q <> 0 \/
     (status q = 0 /\ reports q mode = false /\ status s = 0 /\
      status q' <> 0)).
Proof.
  intros _ _ Hpre Hunbind mode rescheduled q hq s hs q' hq'.
  assert (E : set_cc_mode_loop v (pre ++ gpu :: rest) env h
              = match set_gpu_cc_mode v gpu env h2 with
                | (Ret st, h3) =>
                    if st =? 0 then set_cc_mode_loop v rest env h3
                    else
                      let failed :=
                        (KubectlLabel [(STATE_LABEL, "failed")],
                         env h3 (KubectlLabel [(STATE_LABEL, "failed")])) in
                      (Exit 1, h3 ++ [failed; rescheduled (h3 ++ [failed])])
                | (Exit code, h3) => (Exit code, h3)
                end).
  { rewrite set_cc_mode_loop_app, Hpre.
    cbn [set_cc_mode_loop]. unfold bind at 1. unfold set_cc_mode_body.
    unfold bind at 1. rewrite Hunbind. cbn [Z.eqb negb].
    unfold bind at 1. unfold ret at 1. unfold bind at 1.
    destruct (set_gpu_cc_mode v gpu env h2) as [[st|code] h3]; [|reflexivity].
    destruct (st =? 0); cbn [negb]; [reflexivity|].
    unfold bind, run. rewrite _exit_failed_eq. now rewrite <- app_assoc. }
  split; [|split; [|split]].
  - intros st h3 Hset. now rewrite E, Hset.
  - intros Hq. rewrite E. unfold set_gpu_cc_mode, bind. cbv zeta.
    now rewrite (_assert_gpu_cc_mode_unanswered v env gpu (CC_MODE v) h2 Hq).
  - intros Hq Hr Hs Hq'. rewrite E.
    pose proof (set_gpu_cc_mode_requery v env gpu h2 Hq Hr Hs) as Hset.
    pose proof (_assert_gpu_cc_mode_unanswered v env gpu mode hs Hq') as Hexit.
    subst rescheduled hq' q' hs s hq q mode. unfold event in *.
    cbv zeta in Hset, Hexit. rewrite Hexit in Hset. now rewrite Hset.
  - intros code h3 Hset.
    exact (set_gpu_cc_mode_exits v env gpu h2 code h3 Hset).
Qed.

Lemma C5_first_device_failure_witness :
  set_cc_mode_loop (two_gpus "on") ["0000:41:00.0"; "0000:61:00.0"]
    switch_has_no_effect []
  = (Exit 1,
     [ (DriverExists "0000:41:00.0", Resp 0 "");
       (WriteUnbind "0000:41:00.0", Resp 0 "");
       (WriteDriverOverride "0000:41:00.0", Resp 0 "");
       (QueryCCMode "0000:41:00.0", Resp 0 "GPU 0000:41:00.0 CC mode is off");
       (SetCCModeAndReset "on" "0000:41:00.0", Resp 0 "");
       (QueryCCMode "0000:41:00.0", Resp 0 "GPU 0000:41:00.0 CC mode is off");
       (KubectlLabel [(STATE_LABEL, "failed")], Resp 0 "");
       (KubectlLabel (rescheduled_labels (two_gpus "on")), Resp 0 "") ])
  /\
  set_cc_mode_loop (two_gpus "on") ["0000:41:00.0"; "0000:61:00.0"]
    requery_fails []
  = (Exit 1,
     [ (DriverExists "0000:41:00.0", Resp 0 "");
       (WriteUnbind "0000:41:00.0", Resp 0 "");
       (WriteDriverOverride "0000:41:00.0", Resp 0 "");
       (QueryCCMode "0000:41:00.0", Resp 0 "GPU 0000:41:00.0 CC mode is off");
       (SetCCModeAndReset "on" "0000:41:00.0", Resp 0 "");
       (QueryCCMode "0000:41:00.0",
        Resp 1 "gpu_cc_tool.py: cannot access device");
       (KubectlLabel (rescheduled_labels (two_gpus "on")), Resp 0 "") ]).
Proof.
  assert (Harg : argument "0000:41:00.0") by (split; [discriminate | reflexivity]).
  split.
  - exact (proj1 (C5_first_device_failure (two_gpus "on") switch_has_no_effect
                    [] "0000:41:00.0" ["0000:61:00.0"] [] []
                    [ (DriverExists "0000:41:00.0", Resp 0 "");
                      (WriteUnbind "0000:41:00.0", Resp 0 "");
                      (WriteDriverOverride "0000:41:00.0", Resp 0 "") ]
                    eq_refl Harg eq_refl eq_refl)
             1 _ eq_refl).
  - refine (proj1 (proj2 (proj2
             (C5_first_device_failure (two_gpus "on") requery_fails
                [] "0000:41:00.0" ["0000:61:00.0"] [] []
                [ (DriverExists "0000:41:00.0", Resp 0 "");
                  (WriteUnbind "0000:41:00.0", Resp 0 "");
                  (WriteDriverOverride "0000:41:00.0", Resp 0 "") ]
                eq_refl Harg eq_refl eq_refl)))
             eq_refl eq_refl eq_refl _).
    discriminate.
Defined.




Lemma reports_status q mode : reports q mode = true -> status q = 0.
Proof.
  unfold reports. intros [Hq _]%andb_prop. now apply Z.eqb_eq in Hq.
Qed.

(** When every query made after queries alone reports the desired mode, the
    assertion of all devices makes one query per device and returns 0. *)
Lemma _assert_cc_mode_loop_all_match v env mode gs :
  (forall h gpu,
     all_calls is_query h -> gpu ∈ gs ->
     reports (env h (QueryCCMode gpu)) mode = true) ->
  forall h,
    all_calls is_query h ->
    exists t,
      _assert_cc_mode_loop v mode gs env h = (Ret 0, h ++ t) /\
      calls t = map QueryCCMode gs.
Proof.
  induction gs as [|gpu gs IH]; intros Henv h Hh.
  - exists []. split; [unfold ret; simpl; now rewrite app_nil_r | reflexivity].
  - assert (Hq := Henv h gpu Hh (list_elem_of_here gpu gs)).
    cbn [_assert_cc_mode_loop]. unfold bind.
    rewrite (_assert_gpu_cc_mode_answered v env gpu mode h
               (reports_status _ _ Hq)), Hq.
    cbn [Z.eqb negb].
    destruct (IH (fun h' g Hh' Hg => Henv h' g Hh' (list_elem_of_further _ gpu _ Hg))
                (h ++ [(QueryCCMode gpu, env h (QueryCCMode gpu))]))
      as (t & -> & Ht).
    { apply all_calls_app. split; [exact Hh | now repeat constructor]. }
    eexists (_ :: t). rewrite <- app_assoc. split; [reflexivity|].
    simpl. now rewrite Ht.
Qed.

Lemma queries_only t gs :
  calls t = map QueryCCMode gs ->
  Forall (fun e : event =>
            is_device_mutation (fst e) = false /\
            is_label_update (fst e) = false) t.
Proof.
  revert gs. induction t as [|[c r] t IH]; intros gs E; [constructor|].
  destruct gs as [|gpu gs]; [discriminate|]. injection E as -> E.
  constructor; [now split | now apply (IH gs)].
Qed.

(** C9: a cycle whose desired mode is reported by every device queries each
    device once and returns 0; it changes no device and updates no label. *)
Theorem C9_idempotent_cycle v env :
  (forall h gpu,
     all_calls is_query h -> gpu ∈ gpus v ->
     reports (env h (QueryCCMode gpu)) (CC_MODE v) = true) ->
  result (set_cc_mode v) env = Ret 0 /\
  calls (trace (set_cc_mode v) env) = map QueryCCMode (gpus v) /\
  Forall (fun e : event =>
            is_device_mutation (fst e) = false /\
            is_label_update (fst e) = false)
         (trace (set_cc_mode v) env).
Proof.
  intros Henv.
  assert (E : exists t,
             set_cc_mode v env [] = (Ret 0, t) /\
             calls t = map QueryCCMode (gpus v)).
  { unfold set_cc_mode. destruct (gpus v) as [|gpu gs] eqn:Eg.
    - exists []. now split.
    - cbn [length Nat.eqb]. unfold bind, _assert_cc_mode. rewrite ?Eg.
      destruct (_assert_cc_mode_loop_all_match v env (CC_MODE v) (gpu :: gs))
        with (h := @nil event) as (t & -> & Ht).
      + intros h g Hh Hg. now apply Henv.
      + constructor.
      + exists t. now split. }
  destruct E as (t & E & Ht). unfold result, trace. rewrite E. simpl.
  split; [reflexivity|]. split; [exact Ht | now apply (queries_only t (gpus v))].
Qed.

Lemma C9_idempotent_cycle_witness :
  result (set_cc_mode (two_gpus "off")) switch_has_no_effect = Ret 0 /\
  calls (trace (set_cc_mode (two_gpus "off")) switch_has_no_effect)
  = [QueryCCMode "0000:41:00.0"; QueryCCMode "0000:61:00.0"].
Proof.
  destruct (C9_idempotent_cycle (two_gpus "off") switch_has_no_effect)
    as (Hr & Hc & _).
  - intros h gpu _ Hg. simpl in Hg.
    apply elem_of_cons in Hg as [->|Hg]; [reflexivity|].
    apply list_elem_of_singleton in Hg as ->. reflexivity.
  - split; [exact Hr | exact Hc].
Defined.


End ApplierFacts.

(** ** The mailbox *)

Section WatcherFacts.
Import Watcher.

Lemma exec_sets values s :
  exec s (map CallSet values) = Some (set_all values s, []).
Proof.
  revert s. induction values as [|value values IH]; intros s; [reflexivity|].
  simpl. now rewrite IH.
Qed.

Lemma exec_app s l1 l2 :
  exec s (l1 ++ l2)
  = match exec s l1 with
    | Some (s1, r1) =>
        match exec s1 l2 with
        | Some (s2, r2) => Some (s2, r1 ++ r2)
        | None => None
        end
    | None => None
    end.
Proof.
  revert s. induction l1 as [|l l1 IH]; intros s; simpl.
  - now destruct (exec s l2) as [[s2 r2]|].
  - destruct (step s l) as [[s' r]|]; [|reflexivity].
    rewrite IH. destruct (exec s' l1) as [[s1 r1]|]; [|reflexivity].
    destruct (exec s1 l2) as [[s2 r2]|]; [|reflexivity].
    now rewrite app_assoc.
Qed.

Lemma set_all_outside values s :
  rd s = Outside ->
  rd (set_all values s) = Outside /\
  lastRead (config (set_all values s)) = lastRead (config s).
Proof.
  revert s. induction values as [|value values IH]; intros s Hs; [now split|].
  simpl. destruct (IH (Set_ value s)) as [Hrd Hlast].
  - simpl. now rewrite Hs.
  - now split.
Qed.

Lemma last_set_snoc ls l :
  last_set (ls ++ [l])
  = match l with CallSet value => Some value | _ => last_set ls end.
Proof. unfold last_set. now rewrite fold_left_app. Qed.

Lemma step_tracks ls s l s' r :
  tracks ls s -> step s l = Some (s', r) -> tracks (ls ++ [l]) s'.
Proof.
  unfold tracks. rewrite last_set_snoc. intros Hs Hstep.
  destruct l as [value| |]; simpl in Hstep.
  - injection Hstep as <- _. reflexivity.
  - destruct (rd s) eqn:Hrd; try discriminate. unfold Get, Get_return in Hstep.
    destruct (String.eqb_spec (lastRead (config s)) (current (config s)))
      as [E|E]; injection Hstep as <- _; simpl;
      destruct (last_set ls); try exact Hs.
    + destruct Hs as (? & ? & _). now repeat split.
    + destruct Hs as (? & ? & _). now repeat split.
  - destruct (rd s) eqn:Hrd; try discriminate. unfold Get_return in Hstep.
    injection Hstep as <- _. simpl.
    destruct (last_set ls); [exact Hs|]. now destruct Hs as (_ & _ & ?).
Qed.

Lemma exec_tracks ls :
  forall pre s0 s rs,
    tracks pre s0 -> exec s0 ls = Some (s, rs) -> tracks (pre ++ ls) s.
Proof.
  induction ls as [|l ls IH]; intros pre s0 s rs Hpre Hexec; simpl in Hexec.
  - injection Hexec as <- _. now rewrite app_nil_r.
  - destruct (step s0 l) as [[s1 r]|] eqn:Hstep; [|discriminate].
    destruct (exec s1 ls) as [[s2 rs']|] eqn:Hrest; [|discriminate].
    injection Hexec as <- _.
    replace (pre ++ l :: ls) with ((pre ++ [l]) ++ ls)
      by now rewrite <- app_assoc.
    apply (IH _ s1 _ rs'); [|exact Hrest].
    now apply (step_tracks pre s0 l s1 r).
Qed.

(** C8, as stated, fails: a reader waiting in [Get] is awoken by the first
    [Set]; when the label went back to the value read last before the reader
    runs again, [Get] returns although [current] equals [lastRead]. *)
Lemma C8_counterexample :
  exec initial [CallSet "on"; CallGet; CallGet; CallSet "off"; CallSet "on"]
  = Some ({| config := {| current := "on"; lastRead := "on" |}; rd := Awoken |},
          ["on"])
  /\
  step {| config := {| current := "on"; lastRead := "on" |}; rd := Awoken |}
       ResumeGet
  = Some ({| config := {| current := "on"; lastRead := "on" |}; rd := Outside |},
          Some "on").
Proof. split; reflexivity. Qed.

(** C8, amended: [Set] assigns [current] and wakes a waiting reader; [Get]
    returns at once when [current] differs from [lastRead] on entry, and
    waits when they are equal on entry; on return it assigns [lastRead :=
    current] and returns that value.  In every schedule, the value a [Get]
    returns is the argument of the last [Set] made before it returns; and
    after [Set] calls with no intervening [Get], a [Get] whose [lastRead]
    differs from the last value set returns that value without waiting. *)
Theorem C8_mailbox :
  (forall value s,
     current (config (Set_ value s)) = value /\
     lastRead (config (Set_ value s)) = lastRead (config s) /\
     (rd s = Waiting -> rd (Set_ value s) = Awoken)) /\
  (forall s,
     lastRead (config s) <> current (config s) ->
     Get s = ({| config := {| current := current (config s);
                              lastRead := current (config s) |};
                 rd := Outside |},
              Some (current (config s)))) /\
  (forall s,
     lastRead (config s) = current (config s) ->
     Get s = ({| config := config s; rd := Waiting |}, None)) /\
  (forall ls s rs l s' x,
     exec initial ls = Some (s, rs) ->
     step s l = Some (s', Some x) ->
     last_set ls = Some x /\ lastRead (config s') = x) /\
  (forall s values value,
     rd s = Outside ->
     lastRead (config s) <> value ->
     exists s',
       exec s (map CallSet (values ++ [value]) ++ [CallGet]) = Some (s', [value])
       /\ lastRead (config s') = value).
Proof.
  split; [|split; [|split; [|split]]].
  - intros value s. repeat split. simpl. now intros ->.
  - intros s Hne. unfold Get. apply String.eqb_neq in Hne. now rewrite Hne.
  - intros s He. unfold Get. apply String.eqb_eq in He. now rewrite He.
  - intros ls s rs l s' x Hexec Hstep.
    assert (Ht : tracks ls s).
    { apply (exec_tracks ls [] initial s rs); [|exact Hexec].
      unfold tracks. simpl. now repeat split. }
    unfold tracks in Ht.
    destruct l as [value| |]; simpl in Hstep; [discriminate| |].
    + destruct (rd s); try discriminate. unfold Get, Get_return in Hstep.
      destruct (String.eqb_spec (lastRead (config s)) (current (config s)))
        as [E|E]; [discriminate|].
      injection Hstep as <- <-. simpl.
      destruct (last_set ls); [now subst|].
      destruct Ht as (Hc & Hl & _). congruence.
    + destruct (rd s) eqn:Hrd; try discriminate. unfold Get_return in Hstep.
      injection Hstep as <- <-. simpl.
      destruct (last_set ls); [now subst|].
      now destruct Ht as (_ & _ & ?).
  - intros s values value Hrd Hne.
    rewrite exec_app, exec_sets. unfold set_all. rewrite fold_left_app.
    fold (set_all values s). simpl.
    destruct (set_all_outside values s Hrd) as [Hrd' Hlast].
    rewrite Hrd'. unfold Get. simpl. rewrite Hlast.
    apply String.eqb_neq in Hne. rewrite Hne. simpl. eauto.
Qed.

Lemma C8_mailbox_witness :
  last_set [CallSet "on"; CallSet "off"; CallSet "devtools"] = Some "devtools"
  /\
  exists s',
    exec initial (map CallSet (["on"; "off"] ++ ["devtools"]) ++ [CallGet])
    = Some (s', ["devtools"]) /\ lastRead (config s') = "devtools".
Proof.
  destruct C8_mailbox as (_ & _ & _ & Hlast & Hcoalesce). split.
  - apply (Hlast [CallSet "on"; CallSet "off"; CallSet "devtools"]
             {| config := {| current := "devtools"; lastRead := "" |};
                rd := Outside |}
             [] CallGet
             {| config := {| current := "devtools"; lastRead := "devtools" |};
                rd := Outside |}
             "devtools"); reflexivity.
  - apply (Hcoalesce initial ["on"; "off"] "devtools"); [reflexivity|].
    discriminate.
Defined.

End WatcherFacts.

(** ** Start-up of the reconciler *)

Section MainFacts.
Import Main.

(** Scenario E: the label was removed and the default mode is "on"; the
    loop runs the script with "on". *)
Example scenario_label_removed : loop_mode "on" "" = "on".
Proof. reflexivity. Qed.

(** C7, as stated, fails on a node that carries the label: [start] runs no
    apply before the loop, although the apply would fail here, and goes on
    to the loop. *)
Lemma C7_counterexample :
  start_before_loop labelled_on "off" = ([], EnterLoop).
Proof. vm_compute. reflexivity. Qed.

(** C7, amended: before the loop [start] runs the script only when the
    label of the node is absent or empty and a default mode is configured:
    then once, with the default mode, and the process exits with status 1 if
    that run fails.  When the label is present and not empty, or when no
    default mode is configured, no run is made before the loop. *)
Theorem C7_initial_apply w defaultCCModeFlag nodeLabels :
  build_config_ok w = true ->
  new_clientset_ok w = true ->
  node_labels w = Some nodeLabels ->
  ((nodeLabels !! CCModeConfigLabel = None \/
    nodeLabels !! CCModeConfigLabel = Some "") ->
   defaultCCModeFlag <> "" ->
   start_before_loop w defaultCCModeFlag
   = ([defaultCCModeFlag],
      if runScript_ok w [] defaultCCModeFlag then EnterLoop else OsExit 1)) /\
  (forall value,
     nodeLabels !! CCModeConfigLabel = Some value -> value <> "" ->
     start_before_loop w defaultCCModeFlag = ([], EnterLoop)) /\
  (defaultCCModeFlag = "" ->
   start_before_loop w defaultCCModeFlag = ([], EnterLoop)).
Proof.
  intros Hb Hc Hn. unfold start_before_loop, map_index.
  rewrite Hb, Hc, Hn. cbn [negb]. repeat split.
  - intros Hlabel Hdefault. apply String.eqb_neq in Hdefault.
    destruct Hlabel as [-> | ->]; cbn; rewrite Hdefault; cbn;
      now destruct (runScript_ok w [] defaultCCModeFlag).
  - intros value -> Hvalue. apply String.eqb_neq in Hvalue.
    cbn. now rewrite Hvalue.
  - intros ->.
    destruct (nodeLabels !! CCModeConfigLabel) as [value|]; cbn;
      [now destruct (String.eqb value "") | reflexivity].
Qed.

Lemma C7_initial_apply_witness :
  start_before_loop unlabelled "on" = (["on"], EnterLoop) /\
  start_before_loop labelled_on "off" = ([], EnterLoop).
Proof.
  destruct (C7_initial_apply unlabelled "on" ∅ eq_refl eq_refl eq_refl)
    as (Habsent & _ & _).
  destruct (C7_initial_apply labelled_on "off" {[ CCModeConfigLabel := "on" ]}
              eq_refl eq_refl eq_refl) as (_ & Hpresent & _).
  split.
  - apply Habsent; [left; reflexivity | discriminate].
  - apply (Hpresent "on"); [reflexivity | discriminate].
Defined.

End MainFacts.

(** * Further properties of the script and of the reconciler *)

(** ** The transforms of the coordinator *)

Section TransformFacts.
Import Text Coordinator Script Readings.

Lemma contains_append_r (pat x t : string) :
  contains pat t = true -> contains pat (x +:+ t) = true.
Proof.
  intros Ht. induction x as [|a x IH]; [exact Ht|].
  rewrite append_String_l. cbn [contains]. rewrite IH. apply orb_true_r.
Qed.

Lemma contains_prefix_false (pat s : string) :
  contains pat s = false -> String.prefix pat s = false.
Proof. destruct s; cbn [contains]; intros H; now apply orb_false_elim in H. Qed.

Lemma sed_delete_all_from_absent (pat s : string) (fuel : nat) :
  contains pat s = false -> sed_delete_all_from fuel pat s = s.
Proof.
  revert s. induction fuel as [|fuel IH]; intros s Hs; [reflexivity|].
  destruct s as [|c s]; [reflexivity|]. cbn [sed_delete_all_from].
  rewrite (contains_prefix_false _ _ Hs).
  cbn [contains] in Hs. apply orb_false_elim in Hs as [_ Hs].
  now rewrite IH.
Qed.

Lemma tr_delete_none (c : ascii) (s : string) :
  has_char c s = false -> tr_delete c s = s.
Proof.
  induction s as [|a s IH]; simpl; intros H; [reflexivity|].
  apply orb_false_elim in H as [Ha Hs]. now rewrite Ha, IH.
Qed.

Lemma tr_delete_clean (c : ascii) (s : string) : has_char c (tr_delete c s) = false.
Proof.
  induction s as [|a s IH]; simpl; [reflexivity|].
  destruct (Ascii.eqb a c) eqn:E; [exact IH|]. simpl. now rewrite E, IH.
Qed.

(** A value that carries the marker is left as it is. *)
Lemma _maybe_set_paused_marked (value : string) :
  contains PAUSED_STR value = true -> _maybe_set_paused value = value.
Proof.
  intros Hm. unfold _maybe_set_paused.
  destruct (String.eqb_spec value "") as [->|_]; [reflexivity|].
  destruct (String.eqb_spec value "false") as [->|_]; [reflexivity|].
  destruct (String.eqb_spec value "true") as [->|_]; [discriminate Hm|].
  now rewrite Hm.
Qed.

Lemma _maybe_set_paused_cases (value : string) :
  value = "" \/ value = "false" \/
  (value <> "" /\ value <> "false" /\
   contains PAUSED_STR (_maybe_set_paused value) = true).
Proof.
  unfold _maybe_set_paused.
  destruct (String.eqb_spec value "") as [->|H1]; [now left|].
  destruct (String.eqb_spec value "false") as [->|H2]; [now right; left|].
  right; right. split; [exact H1|]. split; [exact H2|].
  destruct (String.eqb_spec value "true") as [->|_]; [reflexivity|].
  destruct (contains PAUSED_STR value) eqn:Hm; [exact Hm|].
  now apply contains_append_r.
Qed.

(** X1: pausing twice is pausing once: a value that went through
    [_maybe_set_paused] is left unchanged by it. *)
Theorem X1_pause_idempotent (value : string) :
  _maybe_set_paused (_maybe_set_paused value) = _maybe_set_paused value.
Proof.
  destruct (_maybe_set_paused_cases value) as [->|[->|(_ & _ & Hm)]];
    [reflexivity | reflexivity |].
  now apply _maybe_set_paused_marked.
Qed.

(** X2: the paused value carries the marker exactly when the fetched label
    is neither empty nor "false"; those two values are kept as they are. *)
Theorem X2_pause_marks (value : string) :
  (contains PAUSED_STR (_maybe_set_paused value) = true
   <-> value <> "" /\ value <> "false") /\
  _maybe_set_paused "" = "" /\
  _maybe_set_paused "false" = "false".
Proof.
  split; [|split; reflexivity]. split.
  - intros Hm. split; intros ->; discriminate Hm.
  - intros [H1 H2].
    destruct (_maybe_set_paused_cases value) as [->|[->|(_ & _ & Hm)]];
      [contradiction | contradiction | exact Hm].
Qed.

(** X3: the value [_maybe_set_true] gives never holds an underscore. *)
Theorem X3_resume_without_underscore (value : string) :
  has_char "_" (_maybe_set_true value) = false.
Proof.
  unfold _maybe_set_true.
  destruct (String.eqb value "false"); [reflexivity|].
  destruct (String.eqb value PAUSED_STR); [reflexivity|].
  destruct (echo_option value); [reflexivity|].
  apply tr_delete_clean.
Qed.

Lemma _maybe_set_true_plain (value : string) :
  plain value -> echo_option value = false -> _maybe_set_true value = value.
Proof.
  intros [Hm Hu] Ho. unfold _maybe_set_true.
  destruct (String.eqb_spec value "false") as [->|_]; [reflexivity|].
  destruct (String.eqb_spec value PAUSED_STR) as [->|_]; [discriminate Hm|].
  rewrite Ho.
  unfold sed_delete_all. rewrite sed_delete_all_from_absent by exact Hm.
  now apply tr_delete_none.
Qed.

(** X4: when each of the five fetched labels holds neither the marker nor
    an underscore, is passed on whole by the unquoted expansion (no blank,
    no pattern character) and is not taken for options by [echo], the
    rescheduling label update writes every one of them back as it was
    fetched. *)
Theorem X4_reschedule_restores (v : vars) :
  restorable (VFIO_MANAGER_DEPLOYED v) ->
  restorable (VGPU_MANAGER_DEPLOYED v) ->
  restorable (SANDBOX_VALIDATOR_DEPLOYED v) ->
  restorable (SANDBOX_PLUGIN_DEPLOYED v) ->
  restorable (VGPU_DEVICE_MANAGER_DEPLOYED v) ->
  rescheduled_labels v
  = [ ("nvidia.com/gpu.deploy.vfio-manager", VFIO_MANAGER_DEPLOYED v);
      ("nvidia.com/gpu.deploy.vgpu-manager", VGPU_MANAGER_DEPLOYED v);
      ("nvidia.com/gpu.deploy.sandbox-validator", SANDBOX_VALIDATOR_DEPLOYED v);
      ("nvidia.com/gpu.deploy.sandbox-device-plugin", SANDBOX_PLUGIN_DEPLOYED v);
      ("nvidia.com/gpu.deploy.vgpu-device-manager",
       VGPU_DEVICE_MANAGER_DEPLOYED v) ].
Proof.
  intros (H1 & _ & O1) (H2 & _ & O2) (H3 & _ & O3) (H4 & _ & O4)
         (H5 & _ & O5).
  unfold rescheduled_labels.
  now rewrite !_maybe_set_true_plain by assumption.
Qed.

Lemma X4_reschedule_restores_witness :
  rescheduled_labels (Node.two_gpus "on")
  = [ ("nvidia.com/gpu.deploy.vfio-manager", "true");
      ("nvidia.com/gpu.deploy.vgpu-manager", "");
      ("nvidia.com/gpu.deploy.sandbox-validator", "true");
      ("nvidia.com/gpu.deploy.sandbox-device-plugin", "false");
      ("nvidia.com/gpu.deploy.vgpu-device-manager", "v1.2") ].
Proof.
  apply (X4_reschedule_restores (Node.two_gpus "on"));
    repeat split; reflexivity.
Defined.

(** At a value [echo] takes for options the label is written empty. *)
Example resume_echo_option : _maybe_set_true "-n" = "".
Proof. reflexivity. Qed.

End TransformFacts.

(** ** Reading the mode off the output of the tool *)

Section ParseMore.
Import Text Parse Readings.

Lemma words_from_blank (cur s1 s2 : string) (b : ascii) :
  is_blank b = true ->
  words_from cur (s1 +:+ String b s2) = words_from cur s1 ++ words s2.
Proof.
  intros Hb. revert cur. induction s1 as [|a s1 IH]; intros cur.
  - rewrite append_empty_l. cbn [words_from]. now rewrite Hb.
  - rewrite append_String_l. cbn [words_from].
    destruct (is_blank a); [|apply IH].
    rewrite IH. now rewrite <- app_assoc.
Qed.

Lemma concat_cons (sep x : string) (l : list string) :
  l <> [] -> String.concat sep (x :: l) = x +:+ sep +:+ String.concat sep l.
Proof. destruct l; [contradiction | reflexivity]. Qed.

Lemma append_assoc_str (s1 s2 s3 : string) :
  (s1 +:+ s2) +:+ s3 = s1 +:+ s2 +:+ s3.
Proof.
  induction s1 as [|a s1 IH]; [reflexivity|].
  rewrite !append_String_l. now rewrite IH.
Qed.

Lemma concat_app (sep : string) (l1 l2 : list string) :
  l1 <> [] -> l2 <> [] ->
  String.concat sep (l1 ++ l2)
  = String.concat sep l1 +:+ sep +:+ String.concat sep l2.
Proof.
  intros H1 H2. induction l1 as [|x l1 IH]; [contradiction|].
  destruct l1 as [|y l1].
  - simpl app. now rewrite concat_cons.
  - change ((x :: y :: l1) ++ l2) with (x :: ((y :: l1) ++ l2)).
    rewrite concat_cons by discriminate. rewrite IH by discriminate.
    rewrite (concat_cons sep x (y :: l1)) by discriminate.
    now rewrite !append_assoc_str.
Qed.

Lemma after_last_append (pat x t r : string) :
  after_last pat t = Some r -> after_last pat (x +:+ t) = Some r.
Proof.
  intros Ht. induction x as [|a x IH]; [exact Ht|].
  rewrite append_String_l. cbn [after_last]. now rewrite IH.
Qed.

(** The parse of an output that ends in the phrase and the word [mode],
    from what is computed on that ending alone. *)
Lemma _parse_mode_ending (pre mode : string) :
  words ("CC mode is " +:+ mode) = ["CC"; "mode"; "is"; mode] ->
  contains "CC mode is" (" CC mode is " +:+ mode) = true ->
  after_last " CC mode is" (" CC mode is " +:+ mode) = Some (" " +:+ mode) ->
  after_last " CC mode is" ("CC mode is " +:+ mode) = None ->
  contains "CC mode is" ("CC mode is " +:+ mode) = true ->
  _is_valid_mode mode = (0, "") ->
  _parse_mode (pre +:+ " CC mode is " +:+ mode) = (0, mode).
Proof.
  intros Hw Hc Ha Hn Hc' Hv.
  assert (Hline : mode_token (pre +:+ " CC mode is " +:+ mode) = mode).
  { unfold mode_token, echo_unquoted, words.
    change (" CC mode is " +:+ mode) with (String " " ("CC mode is " +:+ mode)).
    rewrite words_from_blank by reflexivity. rewrite Hw.
    destruct (words_from "" pre) as [|w ws] eqn:Hpre.
    - cbn [app String.concat].
      change ("CC" +:+ " " +:+ "mode" +:+ " " +:+ "is" +:+ " " +:+ mode)
        with ("CC mode is " +:+ mode).
      rewrite Hc'. unfold sed_keep_from_phrase. rewrite Hn.
      fold (words ("CC mode is " +:+ mode)). now rewrite Hw.
    - rewrite concat_app by discriminate.
      change (String.concat " " ["CC"; "mode"; "is"; mode])
        with ("CC mode is " +:+ mode).
      change (" " +:+ "CC mode is " +:+ mode)
        with (" CC mode is " +:+ mode).
      rewrite (contains_append_r _ _ _ Hc).
      unfold sed_keep_from_phrase.
      rewrite (after_last_append _ _ _ _ Ha).
      change ("CC mode is" +:+ " " +:+ mode) with ("CC mode is " +:+ mode).
      fold (words ("CC mode is " +:+ mode)). now rewrite Hw. }
  unfold _parse_mode. rewrite Hline, Hv. reflexivity.
Qed.

(** X5: an output that ends in " CC mode is " and one of the three modes
    parses to that mode with status 0, whatever text the tool writes before
    it, as long as [echo $output] writes that text as its words: ASCII
    text without pattern character, whose first word [echo] does not take
    for options. *)
Theorem X5_parse_mode_of_phrase (pre mode : string) :
  echoed_as_words pre ->
  valid_mode mode ->
  _parse_mode (pre +:+ " CC mode is " +:+ mode) = (0, mode).
Proof.
  intros _ [-> | [-> | ->]]; now apply _parse_mode_ending.
Qed.

Lemma X5_parse_mode_of_phrase_witness :
  _parse_mode ("2024 INFO GPU 0000:41:00.0 H100 0x2331" +:+ " CC mode is " +:+ "devtools")
  = (0, "devtools").
Proof.
  apply (X5_parse_mode_of_phrase "2024 INFO GPU 0000:41:00.0 H100 0x2331").
  - split; reflexivity.
  - right; right; reflexivity.
Defined.

(** [_parse_mode] returns 0 with one of the three modes, or 1. *)
Lemma _parse_mode_status (output : string) :
  (fst (_parse_mode output) = 0 /\ valid_mode (snd (_parse_mode output))) \/
  fst (_parse_mode output) = 1.
Proof.
  unfold _parse_mode, _is_valid_mode.
  destruct (String.eqb_spec (mode_token output) "on") as [E|_];
    [left; split; [reflexivity | now left]|].
  destruct (String.eqb_spec (mode_token output) "off") as [E|_];
    [left; split; [reflexivity | now right; left]|].
  destruct (String.eqb_spec (mode_token output) "devtools") as [E|_];
    [left; split; [reflexivity | now right; right]|].
  now right.
Qed.

Lemma reports_valid q mode : Script.reports q mode = true -> valid_mode mode.
Proof.
  unfold Script.reports. intros [_ H]%andb_prop.
  destruct (_parse_mode_status (Shell.output q)) as [[Hs Hv]|Hs];
    destruct (_parse_mode (Shell.output q)) as [st current_mode]; simpl in *.
  - apply andb_prop in H as [_ H]. apply String.eqb_eq in H. now subst.
  - subst st. discriminate H.
Qed.

End ParseMore.

(** ** What a cycle that returns 0 has established *)

Section Soundness.
Import Parse Shell Script Node Readings.
Local Open Scope sh_scope.

Lemma last_query_from (gpu : string) (t : history) (acc : option resp) :
  fold_left
    (fun acc (e : event) =>
       match fst e with
       | QueryCCMode g => if String.eqb g gpu then Some (snd e) else acc
       | _ => acc
       end) t acc
  = match last_query gpu t with Some q => Some q | None => acc end.
Proof.
  unfold last_query. revert acc. induction t as [|e t IH]; intros acc;
    [reflexivity|].
  cbn [fold_left]. rewrite IH. rewrite (IH (match fst e with
                                            | QueryCCMode g =>
                                                if String.eqb g gpu
                                                then Some (snd e) else None
                                            | _ => None
                                            end)).
  destruct (fold_left _ t None); [reflexivity|].
  destruct (fst e); try reflexivity. now destruct (String.eqb gpu0 gpu).
Qed.

Lemma last_query_app (gpu : string) (t1 t2 : history) :
  last_query gpu (t1 ++ t2)
  = match last_query gpu t2 with
    | Some q => Some q
    | None => last_query gpu t1
    end.
Proof. unfold last_query at 1. rewrite fold_left_app. apply last_query_from. Qed.

Lemma last_query_elem (gpu : string) (t : history) (q : resp) :
  last_query gpu t = Some q -> (QueryCCMode gpu, q) ∈ t.
Proof.
  induction t as [|[c r] t IH] using rev_ind; [discriminate|].
  rewrite last_query_app. rewrite elem_of_app.
  match goal with
  | |- context [match ?x with Some _ => _ | None => _ end] =>
      destruct x as [q'|] eqn:E
  end; intros H.
  - right. injection H as ->. unfold last_query in E. simpl in E.
    destruct c; try discriminate.
    destruct (String.eqb_spec gpu0 gpu) as [->|]; [|discriminate].
    injection E as ->. apply list_elem_of_singleton. reflexivity.
  - left. now apply IH.
Qed.

Lemma last_query_found (gpu : string) (t : history) (q : resp) :
  (QueryCCMode gpu, q) ∈ t -> exists q', last_query gpu t = Some q'.
Proof.
  induction t as [|[c r] t IH] using rev_ind.
  - intros H. now apply elem_of_nil in H.
  - rewrite last_query_app. intros [H|H]%elem_of_app.
    + match goal with
      | |- context [match ?x with Some _ => _ | None => _ end] => destruct x
      end; eauto.
    + apply list_elem_of_singleton in H. injection H as <- <-.
      unfold last_query. simpl. rewrite String.eqb_refl. eauto.
Qed.

Lemma last_query_none (gpu : string) (t : history) :
  Forall (fun e : event => is_query (fst e) = false) t ->
  last_query gpu t = None.
Proof.
  induction 1 as [|[c r] t Hc _ IH]; [reflexivity|].
  change ((c, r) :: t) with ([(c, r)] ++ t). rewrite last_query_app, IH.
  simpl in Hc. now destruct c.
Qed.

(** [set_cc_mode] on a node with devices, phase by phase. *)
Lemma set_cc_mode_phases v env h :
  gpus v <> [] ->
  set_cc_mode v env h
  = match _assert_cc_mode_loop v (CC_MODE v) (gpus v) env h with
    | (Exit code, h1) => (Exit code, h1)
    | (Ret a, h1) =>
        if a =? 0 then (Ret 0, h1)
        else
          match _evict_gpu_operator_components v env h1 with
          | (Exit code, h2) => (Exit code, h2)
          | (Ret e, h2) =>
              if negb (e =? 0) then (Ret 1, h2)
              else
                match set_cc_mode_loop v (gpus v) env h2 with
                | (Exit code, h3) => (Exit code, h3)
                | (Ret _, h3) =>
                    let r1 := env h3 success_label in
                    let h4 := h3 ++ [(success_label, r1)] in
                    let r2 := env h4 (KubectlLabel (rescheduled_labels v)) in
                    (Ret (if status r2 =? 0 then 0 else 1),
                     h4 ++ [(KubectlLabel (rescheduled_labels v), r2)])
                end
          end
    end.
Proof.
  intros Hg. unfold set_cc_mode, _assert_cc_mode.
  destruct (gpus v) as [|gpu gs] eqn:Eg; [contradiction|].
  cbn [length Nat.eqb]. unfold bind at 1.
  destruct (_assert_cc_mode_loop v (CC_MODE v) (gpu :: gs) env h)
    as [[a|code] h1]; [|reflexivity].
  destruct (a =? 0); [reflexivity|]. unfold bind at 1.
  destruct (_evict_gpu_operator_components v env h1) as [[e|code] h2];
    [|reflexivity].
  destruct (negb (e =? 0)); [reflexivity|]. unfold bind at 1.
  destruct (set_cc_mode_loop v (gpu :: gs) env h2) as [[[]|code] h3];
    [|reflexivity].
  unfold bind, run, _reschedule_gpu_operator_components, bind, run, ret,
    success_label.
  cbv beta iota zeta.
  now destruct (status _ =? 0).
Qed.

Lemma set_gpu_cc_mode_returns_0 v env gpu h h' :
  set_gpu_cc_mode v gpu env h = (Ret 0, h') ->
  (exists q,
     h' = h ++ [(QueryCCMode gpu, q)] /\ reports q (CC_MODE v) = true) \/
  (exists q s q',
     h' = h ++ [ (QueryCCMode gpu, q);
                 (SetCCModeAndReset (CC_MODE v) gpu, s);
                 (QueryCCMode gpu, q') ] /\
     reports q (CC_MODE v) = false /\ status s = 0 /\
     reports q' (CC_MODE v) = true).
Proof.
  unfold set_gpu_cc_mode, bind. cbv zeta.
  set (q := env h (QueryCCMode gpu)).
  destruct (Z.eq_dec (status q) 0) as [Hq|Hq].
  2: { rewrite (_assert_gpu_cc_mode_unanswered v env gpu (CC_MODE v) h Hq).
       discriminate. }
  rewrite (_assert_gpu_cc_mode_answered v env gpu (CC_MODE v) h Hq). fold q.
  destruct (reports q (CC_MODE v)) eqn:Rq; cbn [Z.eqb negb].
  { intros E. injection E as <-. left. now exists q. }
  unfold run. cbv beta iota zeta.
  set (h1 := h ++ [(QueryCCMode gpu, q)]).
  set (s := env h1 (SetCCModeAndReset (CC_MODE v) gpu)).
  destruct (Z.eqb_spec (status s) 0) as [Hs|Hs]; cbn [negb]; [|discriminate].
  set (h2 := h1 ++ [(SetCCModeAndReset (CC_MODE v) gpu, s)]).
  set (q' := env h2 (QueryCCMode gpu)).
  destruct (Z.eq_dec (status q') 0) as [Hq'|Hq'].
  2: { rewrite (_assert_gpu_cc_mode_unanswered v env gpu (CC_MODE v) h2 Hq').
       discriminate. }
  rewrite (_assert_gpu_cc_mode_answered v env gpu (CC_MODE v) h2 Hq'). fold q'.
  destruct (reports q' (CC_MODE v)) eqn:Rq'; cbn [Z.eqb]; [|discriminate].
  intros E. injection E as <-. right. exists q, s, q'.
  unfold h2, h1. rewrite <- !app_assoc. now repeat split.
Qed.

(** X6: for a desired mode that holds neither a blank nor a pattern
    character, and a device that is one argument, [set_gpu_cc_mode] returns
    0 only after a query of the device whose answer reports the desired
    mode, as its last command: either the one query it made, or the query
    after its one switch. *)
Theorem X6_set_gpu_cc_mode_sound v env gpu h h' :
  is_literal (CC_MODE v) = true ->
  argument gpu ->
  set_gpu_cc_mode v gpu env h = (Ret 0, h') ->
  (exists q,
     h' = h ++ [(QueryCCMode gpu, q)] /\ reports q (CC_MODE v) = true) \/
  (exists q s q',
     h' = h ++ [ (QueryCCMode gpu, q);
                 (SetCCModeAndReset (CC_MODE v) gpu, s);
                 (QueryCCMode gpu, q') ] /\
     reports q (CC_MODE v) = false /\ status s = 0 /\
     reports q' (CC_MODE v) = true).
Proof. intros _ _. apply set_gpu_cc_mode_returns_0. Qed.

Lemma X6_set_gpu_cc_mode_sound_witness :
  (exists q,
     [(QueryCCMode "0000:41:00.0", Resp 0 "GPU 0000:41:00.0 CC mode is on")]
     = [] ++ [(QueryCCMode "0000:41:00.0", q)] /\
     reports q "on" = true) \/
  (exists q s q',
     [(QueryCCMode "0000:41:00.0", Resp 0 "GPU 0000:41:00.0 CC mode is on")]
     = [] ++ [ (QueryCCMode "0000:41:00.0", q);
               (SetCCModeAndReset "on" "0000:41:00.0", s);
               (QueryCCMode "0000:41:00.0", q') ] /\
     reports q "on" = false /\ status s = 0 /\ reports q' "on" = true).
Proof.
  apply (X6_set_gpu_cc_mode_sound (one_gpu "on") (healthy all_on)
           "0000:41:00.0" []).
  - reflexivity.
  - split; [discriminate | reflexivity].
  - reflexivity.
Defined.

Lemma settled_app mode t1 t2 :
  settled mode t1 -> settled mode t2 -> settled mode (t1 ++ t2).
Proof.
  intros H1 H2 gpu q. rewrite last_query_app.
  destruct (last_query gpu t2) as [q2|] eqn:E.
  - intros [= <-]. now apply (H2 gpu).
  - apply H1.
Qed.

Lemma settled_no_query mode t :
  Forall (fun e : event => is_query (fst e) = false) t -> settled mode t.
Proof. intros H gpu q. now rewrite (last_query_none gpu t H). Qed.

Lemma _assert_cc_mode_loop_returns_0 v env mode gs :
  forall h h',
    _assert_cc_mode_loop v mode gs env h = (Ret 0, h') ->
    exists t,
      h' = h ++ t /\ calls t = map QueryCCMode gs /\
      Forall (fun e : event => reports (snd e) mode = true) t.
Proof.
  induction gs as [|gpu gs IH]; intros h h' E.
  - injection E as <-. exists []. now rewrite app_nil_r.
  - cbn [_assert_cc_mode_loop] in E. unfold bind in E.
    set (q := env h (QueryCCMode gpu)) in *.
    destruct (Z.eq_dec (status q) 0) as [Hq|Hq].
    2: { rewrite (_assert_gpu_cc_mode_unanswered v env gpu mode h Hq) in E.
         discriminate. }
    rewrite (_assert_gpu_cc_mode_answered v env gpu mode h Hq) in E.
    fold q in E. destruct (reports q mode) eqn:Rq; cbn [Z.eqb negb] in E;
      [|discriminate].
    destruct (IH _ _ E) as (t & -> & Hc & Hr).
    exists ((QueryCCMode gpu, q) :: t). rewrite <- app_assoc.
    split; [reflexivity|]. split; [simpl; now rewrite Hc|].
    constructor; [exact Rq | exact Hr].
Qed.

Lemma _unbind_device_no_query env gpu h :
  exists u t,
    _unbind_device gpu env h = (Ret u, h ++ t) /\
    Forall (fun e : event => is_query (fst e) = false) t.
Proof.
  unfold _unbind_device, _unbind_device_from_driver, bind, run, ret.
  cbv beta iota zeta. destruct (negb _).
  - eexists 0, [_]. split; [reflexivity | now repeat constructor].
  - eexists _, [_; _; _]. rewrite <- !app_assoc.
    split; [reflexivity | now repeat constructor].
Qed.

Lemma set_cc_mode_body_returns v env gpu h h' :
  set_cc_mode_body v gpu env h = (Ret tt, h') ->
  exists t q,
    h' = h ++ t /\ settled (CC_MODE v) t /\ last_query gpu t = Some q.
Proof.
  unfold set_cc_mode_body. unfold bind at 1.
  destruct (_unbind_device_no_query env gpu h) as (u & tu & -> & Hu).
  unfold bind at 1. destruct (negb (u =? 0)).
  { rewrite _exit_failed_eq. discriminate. }
  unfold ret at 1. unfold bind at 1.
  destruct (set_gpu_cc_mode v gpu env (h ++ tu)) as [[s|code] h2] eqn:Es;
    [|discriminate].
  destruct (Z.eqb_spec s 0) as [->|Hs]; cbn [negb].
  2: { unfold bind, run. rewrite _exit_failed_eq. discriminate. }
  intros [= <-].
  destruct (set_gpu_cc_mode_returns_0 v env gpu _ _ Es)
    as [(q & -> & Rq)|(q & s & q' & -> & _ & _ & Rq')].
  - exists (tu ++ [(QueryCCMode gpu, q)]), q. rewrite <- app_assoc.
    split; [reflexivity|]. split.
    + apply settled_app; [now apply settled_no_query|].
      intros g x. unfold last_query. simpl.
      destruct (String.eqb gpu g); [|discriminate]. now intros [= <-].
    + rewrite last_query_app. unfold last_query at 1. simpl.
      now rewrite String.eqb_refl.
  - exists (tu ++ [ (QueryCCMode gpu, q);
                    (SetCCModeAndReset (CC_MODE v) gpu, s);
                    (QueryCCMode gpu, q') ]), q'.
    rewrite <- app_assoc. split; [reflexivity|]. split.
    + apply settled_app; [now apply settled_no_query|].
      intros g x. unfold last_query. simpl.
      destruct (String.eqb gpu g); [|discriminate]. now intros [= <-].
    + rewrite last_query_app. unfold last_query at 1. simpl.
      now rewrite String.eqb_refl.
Qed.

Lemma set_cc_mode_loop_returns v env gs :
  forall h h',
    set_cc_mode_loop v gs env h = (Ret tt, h') ->
    exists t,
      h' = h ++ t /\ settled (CC_MODE v) t /\
      forall gpu, In gpu gs -> exists q, last_query gpu t = Some q.
Proof.
  induction gs as [|gpu gs IH]; intros h h' E.
  - injection E as <-. exists []. rewrite app_nil_r.
    split; [reflexivity|]. split; [intros g q; discriminate | intros g []].
  - cbn [set_cc_mode_loop] in E. unfold bind in E.
    destruct (set_cc_mode_body v gpu env h) as [[[]|code] h1] eqn:Eb;
      [|discriminate].
    destruct (set_cc_mode_body_returns v env gpu h h1 Eb)
      as (tb & qb & -> & Sb & Lb).
    destruct (IH _ _ E) as (tr & -> & Sr & Lr).
    exists (tb ++ tr). rewrite <- app_assoc. split; [reflexivity|].
    split; [now apply settled_app|].
    intros g Hg. rewrite last_query_app.
    destruct (last_query g tr) as [x|] eqn:Ex; [eauto|].
    destruct Hg as [<-|Hg]; [eauto|].
    destruct (Lr g Hg) as (x & Hx). congruence.
Qed.

Lemma last_query_between (gpu : string) (t1 t2 t3 : history) (q : resp) :
  last_query gpu t2 = Some q ->
  Forall (fun e : event => is_query (fst e) = false) t3 ->
  last_query gpu (t1 ++ t2 ++ t3) = Some q.
Proof.
  intros H2 H3. rewrite !last_query_app.
  now rewrite (last_query_none gpu t3 H3), H2.
Qed.

Lemma set_cc_mode_returns_0 v env h h' :
  set_cc_mode v env h = (Ret 0, h') ->
  exists t,
    h' = h ++ t /\
    forall gpu,
      In gpu (gpus v) ->
      exists q, last_query gpu t = Some q /\ reports q (CC_MODE v) = true.
Proof.
  destruct (gpus v) as [|g0 gs0] eqn:Eg.
  { unfold set_cc_mode. rewrite Eg. cbn [length Nat.eqb]. unfold ret.
    intros [= <-]. exists []. rewrite app_nil_r.
    split; [reflexivity | intros g []]. }
  rewrite set_cc_mode_phases by (rewrite Eg; discriminate). rewrite Eg.
  destruct (_assert_cc_mode_loop v (CC_MODE v) (g0 :: gs0) env h)
    as [[a|code] h1] eqn:Ea; [|discriminate].
  destruct (Z.eqb_spec a 0) as [->|Ha].
  { intros [= <-].
    destruct (_assert_cc_mode_loop_returns_0 v env _ _ _ _ Ea)
      as (t & -> & Hc & Hr).
    exists t. split; [reflexivity|]. intros g Hg.
    assert (Hin : exists q, (QueryCCMode g, q) ∈ t).
    { assert (Hcall : In (QueryCCMode g) (calls t))
        by (rewrite Hc; now apply in_map).
      unfold calls in Hcall. apply in_map_iff in Hcall as ([c q] & Hcq & Hin).
      simpl in Hcq. subst c. exists q. now apply list_elem_of_In. }
    destruct Hin as (q0 & Hin).
    destruct (last_query_found g t q0 Hin) as (q & Hq).
    exists q. split; [exact Hq|].
    apply last_query_elem in Hq. rewrite Forall_forall in Hr.
    exact (Hr _ Hq). }
  destruct (emits_assert_loop v (CC_MODE v) (g0 :: gs0) env h)
    as (ta & Eh & _).
  rewrite Ea in Eh. simpl in Eh. subst h1.
  destruct (_evict_spec v env (h ++ ta)) as [(_ & ->)|(_ & tw & -> & Hw)];
    cbn [Z.eqb negb]; [discriminate|].
  set (rp := env (h ++ ta) (KubectlLabel (paused_labels v))).
  destruct (set_cc_mode_loop v (g0 :: gs0) env _) as [[[]|code] h3] eqn:El;
    [|discriminate].
  destruct (set_cc_mode_loop_returns v env _ _ _ El) as (tl & -> & Sl & Ll).
  cbv zeta.
  set (r1 := env _ success_label).
  set (r2 := env _ (KubectlLabel (rescheduled_labels v))).
  intros [= _ <-].
  exists ((ta ++ (KubectlLabel (paused_labels v), rp) :: tw) ++ tl
          ++ [ (success_label, r1);
               (KubectlLabel (rescheduled_labels v), r2) ]).
  split.
  { rewrite <- !app_assoc. reflexivity. }
  intros g Hg. destruct (Ll g Hg) as (q & Hq). exists q.
  split; [|exact (Sl g q Hq)].
  apply last_query_between; [exact Hq | now repeat constructor].
Qed.

(** X7: for a desired mode that holds neither a blank nor a pattern
    character, and devices that are one argument each: when [set_cc_mode]
    returns 0, the last answer the query tool gave in the cycle about each
    device of [gpus] reports the desired mode. *)
Theorem X7_cycle_sound v env :
  is_literal (CC_MODE v) = true ->
  Forall argument (gpus v) ->
  result (set_cc_mode v) env = Ret 0 ->
  forall gpu,
    In gpu (gpus v) ->
    exists q,
      last_query gpu (trace (set_cc_mode v) env) = Some q /\
      reports q (CC_MODE v) = true.
Proof.
  unfold result, trace. intros _ _ Hr gpu Hg.
  destruct (set_cc_mode v env []) as [o h'] eqn:E. simpl in *. subst o.
  destruct (set_cc_mode_returns_0 v env [] h' E) as (t & -> & Ht).
  exact (Ht gpu Hg).
Qed.

Lemma X7_cycle_sound_witness :
  exists q,
    last_query "0000:61:00.0"
      (trace (set_cc_mode (two_gpus "on")) (healthy all_off)) = Some q /\
    reports q "on" = true.
Proof.
  apply (X7_cycle_sound (two_gpus "on") (healthy all_off)).
  - reflexivity.
  - repeat constructor; discriminate.
  - reflexivity.
  - right; left; reflexivity.
Defined.

(** X8: with a desired mode that holds neither a blank nor a pattern
    character and is none of "on", "off" and "devtools", a cycle on a node
    with devices never returns 0: the mode is not refused beforehand, but
    no answer of the tool can report it.  (A mode such as "on " is not
    covered: the script compares its first word.) *)
Theorem X8_unknown_mode_never_succeeds v env :
  is_literal (CC_MODE v) = true ->
  Forall argument (gpus v) ->
  gpus v <> [] ->
  ~ valid_mode (CC_MODE v) ->
  result (set_cc_mode v) env <> Ret 0.
Proof.
  intros _ _ Hg Hm Hr. unfold result in Hr.
  destruct (set_cc_mode v env []) as [o h'] eqn:E. simpl in Hr. subst o.
  destruct (set_cc_mode_returns_0 v env [] h' E) as (t & _ & Ht).
  destruct (gpus v) as [|gpu gs]; [contradiction|].
  destruct (Ht gpu (or_introl eq_refl)) as (q & _ & Rq).
  apply Hm. exact (reports_valid q _ Rq).
Qed.

Lemma X8_unknown_mode_never_succeeds_witness :
  result (set_cc_mode (one_gpu "enabled")) (healthy all_off) <> Ret 0.
Proof.
  apply (X8_unknown_mode_never_succeeds (one_gpu "enabled") (healthy all_off)).
  - reflexivity.
  - repeat constructor; discriminate.
  - discriminate.
  - intros [H|[H|H]]; discriminate H.
Defined.

End Soundness.

(** ** How a cycle ends, what it waits for and what it touches *)

Section CycleMore.
Import Parse Shell Script Node Readings.
Local Open Scope sh_scope.

(** X9: [set_cc_mode] returns 0 or 1 or ends the script with status 1; when
    it ends the script, its last command is the rescheduling label update. *)
Theorem X9_cycle_outcomes v env :
  match result (set_cc_mode v) env with
  | Ret s => s = 0 \/ s = 1
  | Exit code =>
      code = 1 /\
      exists t r,
        trace (set_cc_mode v) env
        = t ++ [(KubectlLabel (rescheduled_labels v), r)]
  end.
Proof.
  unfold result, trace.
  destruct (set_cc_mode_cycle v env []) as (o & t & -> & Hc). simpl.
  destruct Hc as [t Hq|t r Hq|t r Hq Hr|t r tw tl r' Hq Hr Hw Hl
                 |t r tw tl r1 r2 Hq Hr Hw Hl].
  - now left.
  - split; [reflexivity|]. now exists t, r.
  - now right.
  - split; [reflexivity|].
    exists (t ++ (KubectlLabel (paused_labels v), r) :: tw ++ tl), r'.
    rewrite <- app_assoc. simpl. now rewrite <- app_assoc.
  - destruct (status r2 =? 0); [now left | now right].
Qed.

(** X10: when the query of the first device cannot be run while the modes
    are asserted, the cycle issues the rescheduling label update, although
    no component was paused, and ends the script with status 1. *)
Theorem X10_reschedule_without_evict v env gpu gs h :
  gpus v = gpu :: gs ->
  status (env h (QueryCCMode gpu)) <> 0 ->
  let q := (QueryCCMode gpu, env h (QueryCCMode gpu)) in
  set_cc_mode v env h
  = (Exit 1,
     h ++ [ q;
            (KubectlLabel (rescheduled_labels v),
             env (h ++ [q]) (KubectlLabel (rescheduled_labels v))) ]).
Proof.
  intros Eg Hq q. unfold set_cc_mode, _assert_cc_mode. rewrite Eg.
  cbn [length Nat.eqb _assert_cc_mode_loop]. unfold bind.
  rewrite (_assert_gpu_cc_mode_unanswered v env gpu (CC_MODE v) h Hq).
  now rewrite <- app_assoc.
Qed.

Lemma X10_reschedule_without_evict_witness :
  set_cc_mode (one_gpu "on") tool_missing []
  = (Exit 1,
     [ (QueryCCMode "0000:41:00.0", Resp 1 "no such device");
       (KubectlLabel (rescheduled_labels (one_gpu "on")), Resp 0 "") ]).
Proof.
  exact (X10_reschedule_without_evict (one_gpu "on") tool_missing
           "0000:41:00.0" [] [] eq_refl ltac:(vm_compute; discriminate)).
Defined.

Lemma calls_app t1 t2 : calls (t1 ++ t2) = calls t1 ++ calls t2.
Proof. unfold calls. apply map_app. Qed.

(** X11: after a successful label update, the eviction waits for the pods
    of exactly the kinds whose fetched label is not empty, in the order
    vfio-manager, vgpu-manager, sandbox-validator, sandbox-device-plugin,
    vgpu-device-manager; a kind whose label is "false" is waited for. *)
Theorem X11_eviction_waits v env h :
  status (env h (KubectlLabel (paused_labels v))) = 0 ->
  calls (snd (_evict_gpu_operator_components v env h))
  = calls h ++ KubectlLabel (paused_labels v)
       :: map KubectlWaitDelete (awaited v).
Proof.
  intros Hs. unfold _evict_gpu_operator_components, bind, run.
  cbv beta iota zeta. rewrite Hs. cbn [Z.eqb negb].
  unfold awaited, kinds, wait_for_shutdown, bind, run, ret.
  cbn [List.filter fst snd].
  destruct (String.eqb (VFIO_MANAGER_DEPLOYED v) "");
    destruct (String.eqb (VGPU_MANAGER_DEPLOYED v) "");
    destruct (String.eqb (SANDBOX_VALIDATOR_DEPLOYED v) "");
    destruct (String.eqb (SANDBOX_PLUGIN_DEPLOYED v) "");
    destruct (String.eqb (VGPU_DEVICE_MANAGER_DEPLOYED v) "");
    cbn [negb map snd]; rewrite ?calls_app; rewrite <- ?app_assoc;
    reflexivity.
Qed.

Lemma X11_eviction_waits_witness :
  calls (snd (_evict_gpu_operator_components (two_gpus "on")
                (healthy all_off) []))
  = [ KubectlLabel (paused_labels (two_gpus "on"));
      KubectlWaitDelete "nvidia-vfio-manager";
      KubectlWaitDelete "nvidia-sandbox-validator";
      KubectlWaitDelete "nvidia-sandbox-device-plugin-daemonset";
      KubectlWaitDelete "nvidia-vgpu-device-manager" ].
Proof.
  apply (X11_eviction_waits (two_gpus "on") (healthy all_off) []).
  reflexivity.
Defined.

Lemma is_gpu_In v gpu : In gpu (gpus v) -> is_gpu v gpu = true.
Proof.
  intros H. unfold is_gpu. apply existsb_exists. exists gpu.
  split; [exact H | apply String.eqb_refl].
Qed.

Ltac scope_step :=
  first
    [ apply emits_ret
    | apply emits_exit_failed
    | apply emits_run; cbn [in_scope]; rewrite ?String.eqb_refl;
      first [reflexivity | assumption]
    | apply emits_bind; [ auto | | intros ? ]
    | match goal with
      | |- emits _ _ _ (if ?b then _ else _) => destruct b
      | |- emits _ _ _ (let '(_, _) := ?x in _) => destruct x
      end ].

Lemma scope_assert_gpu v gpu mode :
  is_gpu v gpu = true ->
  emits v (in_scope v) (in_scope v) (_assert_gpu_cc_mode v gpu mode).
Proof. intros Hg. unfold _assert_gpu_cc_mode. repeat scope_step. Qed.

Lemma scope_assert_loop v mode gs :
  (forall gpu, In gpu gs -> is_gpu v gpu = true) ->
  emits v (in_scope v) (in_scope v) (_assert_cc_mode_loop v mode gs).
Proof.
  induction gs as [|gpu gs IH]; intros Hgs; cbn [_assert_cc_mode_loop];
    [apply emits_ret|].
  apply emits_bind; [auto | apply scope_assert_gpu, Hgs; now left | intros a].
  destruct (negb _); [apply emits_ret|]. apply IH. intros g Hg. apply Hgs.
  now right.
Qed.

Lemma scope_evict v :
  emits v (in_scope v) (in_scope v) (_evict_gpu_operator_components v).
Proof.
  unfold _evict_gpu_operator_components, wait_for_shutdown.
  repeat scope_step.
Qed.

Lemma scope_body v gpu :
  is_gpu v gpu = true ->
  emits v (in_scope v) (in_scope v) (set_cc_mode_body v gpu).
Proof.
  intros Hg.
  unfold set_cc_mode_body, _unbind_device, _unbind_device_from_driver,
    set_gpu_cc_mode, _assert_gpu_cc_mode.
  repeat scope_step.
Qed.

Lemma scope_loop v gs :
  (forall gpu, In gpu gs -> is_gpu v gpu = true) ->
  emits v (in_scope v) (in_scope v) (set_cc_mode_loop v gs).
Proof.
  induction gs as [|gpu gs IH]; intros Hgs; cbn [set_cc_mode_loop];
    [apply emits_ret|].
  apply emits_bind; [auto | apply scope_body, Hgs; now left | intros _].
  apply IH. intros g Hg. apply Hgs. now right.
Qed.

Lemma scope_set_cc_mode v :
  emits v (in_scope v) (in_scope v) (set_cc_mode v).
Proof.
  unfold set_cc_mode, _assert_cc_mode.
  destruct (length (gpus v) =? 0)%nat; [apply emits_ret|].
  apply emits_bind;
    [auto | apply scope_assert_loop, is_gpu_In | intros a].
  destruct (a =? 0); [apply emits_ret|].
  apply emits_bind; [auto | apply scope_evict | intros e].
  destruct (negb _); [apply emits_ret|].
  apply emits_bind; [auto | apply scope_loop, is_gpu_In | intros _].
  unfold _reschedule_gpu_operator_components. repeat scope_step.
Qed.

(** X12: a cycle only addresses the devices of [gpus]: every query, driver
    test, unbind write and switch of the cycle is on one of them, and every
    switch it asks for is a switch to the desired mode. *)
Theorem X12_cycle_in_scope v env :
  all_calls (in_scope v) (trace (set_cc_mode v) env).
Proof.
  unfold trace. destruct (scope_set_cc_mode v env []) as (t & Et & Ho).
  rewrite Et. simpl. destruct (fst (set_cc_mode v env [])) as [s|code];
    simpl in Ho; [exact Ho|].
  destruct Ho as (_ & t0 & r & -> & Ht0).
  apply Forall_app. split; [exact Ht0 | now repeat constructor].
Qed.

Lemma _assert_cc_mode_loop_app v env mode pre gs h :
  _assert_cc_mode_loop v mode (pre ++ gs) env h
  = match _assert_cc_mode_loop v mode pre env h with
    | (Ret a, h1) =>
        if negb (a =? 0) then (Ret 1, h1)
        else _assert_cc_mode_loop v mode gs env h1
    | (Exit code, h1) => (Exit code, h1)
    end.
Proof.
  revert h. induction pre as [|gpu pre IH]; intros h; [reflexivity|].
  cbn [app _assert_cc_mode_loop]. unfold bind.
  destruct (_assert_gpu_cc_mode v gpu mode env h) as [[a|code] h1];
    [|reflexivity].
  destruct (negb (a =? 0)) eqn:Ea; [reflexivity|]. apply IH.
Qed.

(** X13: the assertion of the modes stops at the first device that is not
    in the desired mode: it returns 1 after the query of that device, and
    the devices behind it are not queried. *)
Theorem X13_assertion_stops_at_mismatch v env mode pre gpu rest h h1 :
  _assert_cc_mode_loop v mode pre env h = (Ret 0, h1) ->
  status (env h1 (QueryCCMode gpu)) = 0 ->
  reports (env h1 (QueryCCMode gpu)) mode = false ->
  _assert_cc_mode_loop v mode (pre ++ gpu :: rest) env h
  = (Ret 1, h1 ++ [(QueryCCMode gpu, env h1 (QueryCCMode gpu))]).
Proof.
  intros Hpre Hs Hr. rewrite _assert_cc_mode_loop_app, Hpre.
  cbn [Z.eqb negb _assert_cc_mode_loop]. unfold bind.
  rewrite (_assert_gpu_cc_mode_answered v env gpu mode h1 Hs), Hr.
  reflexivity.
Qed.

Lemma X13_assertion_stops_at_mismatch_witness :
  _assert_cc_mode_loop (two_gpus "on") "on" ([] ++ "0000:41:00.0" :: ["0000:61:00.0"])
    (healthy all_off) []
  = (Ret 1,
     [] ++ [ (QueryCCMode "0000:41:00.0",
              healthy all_off [] (QueryCCMode "0000:41:00.0")) ]).
Proof.
  apply (X13_assertion_stops_at_mismatch (two_gpus "on") (healthy all_off)
           "on" [] "0000:41:00.0" ["0000:61:00.0"] [] []); reflexivity.
Defined.

End CycleMore.

(** ** Reading the modes: [get_gpu_cc_mode], [get_cc_mode] and the commands *)

Section GetFacts.
Import Parse Shell Script Node Readings Commands.
Local Open Scope sh_scope.

Lemma reports_parse q mode :
  reports q mode = true ->
  status q = 0 /\ _parse_mode (output q) = (0, mode).
Proof.
  unfold reports. intros [Hs H]%andb_prop. apply Z.eqb_eq in Hs.
  split; [exact Hs|].
  destruct (_parse_mode (output q)) as [st current_mode].
  apply andb_prop in H as [Hst Hm].
  apply Z.eqb_eq in Hst. apply String.eqb_eq in Hm. now subst.
Qed.

(** [get_gpu_cc_mode] makes one query and returns 0 with the mode the
    answer reports, or 1 when the answer reports no mode. *)
Lemma get_gpu_cc_mode_spec env gpu h :
  let q := env h (QueryCCMode gpu) in
  exists st out,
    get_gpu_cc_mode gpu env h = (Ret (st, out), h ++ [(QueryCCMode gpu, q)]) /\
    ((st = 0 /\ reports q out = true) \/
     (st = 1 /\ forall mode, reports q mode = false)).
Proof.
  intros q. unfold get_gpu_cc_mode, bind, run, ret. cbv beta iota zeta.
  fold q. unfold reports.
  destruct (Z.eqb_spec (status q) 0) as [Hs|Hs]; cbn [negb andb].
  2: { eexists 1, _. split; [reflexivity|]. right. now split. }
  destruct (_parse_mode_status (output q)) as [[Hst _]|Hst];
    destruct (_parse_mode (output q)) as [st current_mode]; simpl in Hst;
    subst st; cbn [Z.eqb negb andb].
  - exists 0, current_mode. split; [reflexivity|]. left.
    now rewrite String.eqb_refl.
  - eexists 1, _. split; [reflexivity|]. right. now split.
Qed.

Lemma get_cc_mode_loop_runs env gs :
  forall mode out h,
    exists st out' t,
      get_cc_mode_loop mode out gs env h = (Ret (st, out'), h ++ t) /\
      (st = 0 \/ st = 1) /\
      exists n, calls t = map QueryCCMode (firstn n gs).
Proof.
  induction gs as [|gpu gs IH]; intros mode out h.
  - eexists 0, _, []. unfold get_cc_mode_loop, ret. rewrite app_nil_r.
    split; [reflexivity|]. split; [now left | now exists 0%nat].
  - cbn [get_cc_mode_loop]. unfold bind.
    destruct (get_gpu_cc_mode_spec env gpu h) as (st & o & -> & Hst).
    assert (Hstop : forall x : list string,
               exists st' out' t,
                 (Ret (A:=Z * list string) (1, x),
                  h ++ [(QueryCCMode gpu, env h (QueryCCMode gpu))])
                 = (Ret (st', out'), h ++ t) /\
                 (st' = 0 \/ st' = 1) /\
                 exists n, calls t = map QueryCCMode (firstn n (gpu :: gs))).
    { intros x. eexists 1, x, [_]. split; [reflexivity|].
      split; [now right | now exists 1%nat]. }
    destruct Hst as [[-> _]|[-> _]]; cbn [Z.eqb negb]; [|apply Hstop].
    destruct (negb (String.eqb mode "") && negb (String.eqb o mode));
      [apply Hstop|].
    destruct (IH o (out ++ ["getting cc mode of gpu " +:+ gpu])
                (h ++ [(QueryCCMode gpu, env h (QueryCCMode gpu))]))
      as (st' & out' & t & -> & Hst' & n & Hn).
    exists st', out', ((QueryCCMode gpu, env h (QueryCCMode gpu)) :: t).
    rewrite <- app_assoc. split; [reflexivity|]. split; [exact Hst'|].
    exists (S n). simpl. now rewrite Hn.
Qed.

(** X14: [get_cc_mode] never ends the script and changes nothing: it
    returns 0 or 1 after querying the devices of [gpus] in order, up to the
    first device it stops at. *)
Theorem X14_get_cc_mode_reads_only v env h :
  exists st out t,
    get_cc_mode v env h = (Ret (st, out), h ++ t) /\
    (st = 0 \/ st = 1) /\
    exists n, calls t = map QueryCCMode (firstn n (gpus v)).
Proof.
  unfold get_cc_mode. destruct (length (gpus v) =? 0)%nat.
  - exists 0, ["off"], []. unfold ret. rewrite app_nil_r.
    split; [reflexivity|]. split; [now left | now exists 0%nat].
  - apply get_cc_mode_loop_runs.
Qed.

Lemma get_cc_mode_loop_returns_0 env gs :
  forall mode out h out' h',
    get_cc_mode_loop mode out gs env h = (Ret (0, out'), h') ->
    exists t m,
      h' = h ++ t /\ calls t = map QueryCCMode gs /\
      Forall (fun e : event => reports (snd e) m = true) t /\
      last out' = Some (summary m) /\
      (mode <> "" -> m = mode) /\
      (gs = [] -> m = mode).
Proof.
  induction gs as [|gpu gs IH]; intros mode out h out' h' E.
  - injection E as <- <-. exists [], mode. rewrite app_nil_r.
    repeat split; auto. apply last_snoc.
  - cbn [get_cc_mode_loop] in E. unfold bind in E.
    destruct (get_gpu_cc_mode_spec env gpu h) as (st & o & Eg & Hst).
    rewrite Eg in E. destruct Hst as [[-> Ro]|[-> _]]; cbn [Z.eqb negb] in E;
      [|discriminate].
    destruct (negb (String.eqb mode "") && negb (String.eqb o mode)) eqn:Em;
      [discriminate|].
    destruct (IH _ _ _ _ _ E) as (t & m & -> & Hc & Hr & Hl & Hm & _).
    assert (Ho : m = o).
    { apply Hm. intros ->. apply reports_valid in Ro.
      destruct Ro as [H|[H|H]]; discriminate H. }
    subst m. exists ((QueryCCMode gpu, env h (QueryCCMode gpu)) :: t), o.
    rewrite <- app_assoc. split; [reflexivity|].
    split; [simpl; now rewrite Hc|]. split; [now constructor|].
    split; [exact Hl|]. split; [|discriminate].
    intros Hne. apply andb_false_iff in Em as [Em|Em].
    + apply negb_false_iff, String.eqb_eq in Em. contradiction.
    + now apply negb_false_iff, String.eqb_eq in Em.
Qed.

(** X15: when [get_cc_mode] returns 0 on a node with devices, it has
    queried every device of [gpus], every answer reports one and the same
    mode, one of "on", "off" and "devtools", and its last line names that
    mode. *)
Theorem X15_get_cc_mode_agreement v env h out h' :
  gpus v <> [] ->
  get_cc_mode v env h = (Ret (0, out), h') ->
  exists t m,
    h' = h ++ t /\ calls t = map QueryCCMode (gpus v) /\
    Forall (fun e : event => reports (snd e) m = true) t /\
    valid_mode m /\
    last out = Some (summary m).
Proof.
  intros Hg. unfold get_cc_mode.
  destruct (gpus v) as [|gpu gs] eqn:Eg; [contradiction|].
  cbn [length Nat.eqb]. intros E.
  destruct (get_cc_mode_loop_returns_0 env _ _ _ _ _ _ E)
    as (t & m & -> & Hc & Hr & Hl & _).
  exists t, m. repeat split; auto.
  destruct t as [|e t]; [discriminate Hc|].
  apply Forall_cons in Hr as [Hr _]. exact (reports_valid _ _ Hr).
Qed.

Lemma X15_get_cc_mode_agreement_witness :
  exists t m,
    [ (QueryCCMode "0000:41:00.0", Resp 0 "GPU 0000:41:00.0 CC mode is off");
      (QueryCCMode "0000:61:00.0", Resp 0 "GPU 0000:61:00.0 CC mode is off") ]
    = [] ++ t /\
    calls t = map QueryCCMode (gpus (two_gpus "on")) /\
    Forall (fun e : event => reports (snd e) m = true) t /\
    valid_mode m /\
    last [ "getting cc mode of gpu 0000:41:00.0";
           "getting cc mode of gpu 0000:61:00.0";
           "current cc mode of all supported gpus is off" ]
    = Some (summary m).
Proof.
  apply (X15_get_cc_mode_agreement (two_gpus "on") (healthy all_off) []);
    [discriminate | reflexivity].
Defined.

Lemma get_cc_mode_loop_agreed env m gs :
  (forall h gpu,
     all_calls is_query h -> In gpu gs ->
     reports (env h (QueryCCMode gpu)) m = true) ->
  forall mode out h,
    all_calls is_query h ->
    mode = "" \/ mode = m ->
    gs <> [] ->
    exists out' t,
      get_cc_mode_loop mode out gs env h = (Ret (0, out'), h ++ t) /\
      calls t = map QueryCCMode gs /\
      last out' = Some (summary m).
Proof.
  induction gs as [|gpu gs IH]; intros Henv mode out h Hh Hmode Hne;
    [contradiction|].
  cbn [get_cc_mode_loop]. unfold bind.
  assert (Rq := Henv h gpu Hh (or_introl eq_refl)).
  destruct (get_gpu_cc_mode_spec env gpu h) as (st & o & -> & Hst).
  destruct Hst as [[-> Ro]|[_ Hno]]; [|now rewrite Hno in Rq].
  assert (Eo : o = m).
  { apply reports_parse in Rq as [_ Hm]. apply reports_parse in Ro as [_ Ho].
    congruence. }
  subst o. cbn [Z.eqb negb].
  assert (Em : negb (String.eqb mode "") && negb (String.eqb m mode) = false).
  { destruct Hmode as [-> | ->]; [reflexivity|].
    rewrite String.eqb_refl. apply andb_false_r. }
  rewrite Em.
  set (q := (QueryCCMode gpu, env h (QueryCCMode gpu))).
  assert (Hh' : all_calls is_query (h ++ [q])).
  { apply Forall_app. split; [exact Hh | now repeat constructor]. }
  destruct gs as [|gpu' gs'].
  - cbn [get_cc_mode_loop]. unfold ret. eexists _, [q].
    split; [reflexivity|]. split; [reflexivity | apply last_snoc].
  - destruct (IH (fun h' g Hq Hg => Henv h' g Hq (or_intror Hg)) m
                (out ++ ["getting cc mode of gpu " +:+ gpu]) (h ++ [q]) Hh')
      as (out' & t & -> & Hc & Hl); [now right | discriminate|].
    exists out', (q :: t). rewrite <- app_assoc.
    split; [reflexivity|]. split; [simpl; now rewrite Hc | exact Hl].
Qed.

(** X16: on a node with devices, when every query reports the mode [m],
    [get_cc_mode] returns 0 after one query per device and its last line
    names [m]. *)
Theorem X16_get_cc_mode_uniform v env m :
  gpus v <> [] ->
  (forall h gpu,
     all_calls is_query h -> In gpu (gpus v) ->
     reports (env h (QueryCCMode gpu)) m = true) ->
  exists out t,
    get_cc_mode v env [] = (Ret (0, out), t) /\
    calls t = map QueryCCMode (gpus v) /\
    last out = Some (summary m).
Proof.
  intros Hg Henv. unfold get_cc_mode.
  destruct (gpus v) as [|gpu gs] eqn:Eg; [contradiction|].
  cbn [length Nat.eqb].
  destruct (get_cc_mode_loop_agreed env m (gpu :: gs) Henv "" [] [])
    as (out & t & E & Hc & Hl);
    [constructor | now left | discriminate|].
  now exists out, t.
Qed.

Lemma X16_get_cc_mode_uniform_witness :
  exists out t,
    get_cc_mode (two_gpus "on") switch_has_no_effect [] = (Ret (0, out), t) /\
    calls t = map QueryCCMode (gpus (two_gpus "on")) /\
    last out = Some (summary "off").
Proof.
  apply (X16_get_cc_mode_uniform (two_gpus "on") switch_has_no_effect "off");
    [discriminate|].
  intros h gpu _ [<-|[<-|[]]]; reflexivity.
Defined.




End GetFacts.

(** ** Discovery of the devices and the list of device ids *)

Section DiscoveryFacts.
Import Text Parse Discovery Readings.

Lemma _array_contains_In (array : list string) (seeking : string) :
  (_array_contains array seeking = 0 <-> In seeking array) /\
  (_array_contains array seeking = 0 \/ _array_contains array seeking = 1).
Proof.
  induction array as [|element rest [IH1 IH2]]; simpl.
  - split; [split; [discriminate | intros []] | now right].
  - destruct (String.eqb_spec element seeking) as [->|Hne].
    + split; [split; auto | now left].
    + split; [|exact IH2]. rewrite IH1. split; [auto | intros [H|H]; congruence].
Qed.

(** One round of the loop of [_get_all_cc_capable_gpus]. *)
Lemma _get_all_cc_capable_gpus_step gpus dev devs :
  _get_all_cc_capable_gpus gpus (dev :: devs)
  = _get_all_cc_capable_gpus
      (if is_candidate dev && negb (_array_contains gpus (bdf dev) =? 0)
       then gpus ++ [bdf dev] else gpus)
      devs.
Proof.
  cbn [_get_all_cc_capable_gpus]. unfold is_candidate.
  destruct (String.eqb (vendor dev) "0x10de"); [|reflexivity].
  destruct (String.eqb (class dev) "0x030000"),
           (String.eqb (class dev) "0x030200"); cbn [negb andb orb];
    try reflexivity;
    now destruct (negb (_array_contains gpus (bdf dev) =? 0)).
Qed.

Lemma contains_In gpus x :
  negb (_array_contains gpus x =? 0) = true <-> ~ In x gpus.
Proof.
  destruct (_array_contains_In gpus x) as [H1 [H2|H2]]; rewrite H2; simpl.
  - split; [discriminate|]. intros H. exfalso. apply H, H1, H2.
  - split; [|reflexivity]. intros _ H. apply H1 in H. congruence.
Qed.

Lemma discovery_elements devs :
  forall gpus x,
    In x (_get_all_cc_capable_gpus gpus devs) <->
    In x gpus \/
    exists dev, In dev devs /\ is_candidate dev = true /\ bdf dev = x.
Proof.
  induction devs as [|dev devs IH]; intros gpus x.
  - simpl. split; [auto | intros [H|(dev & [] & _)]; exact H].
  - rewrite _get_all_cc_capable_gpus_step, IH.
    destruct (is_candidate dev) eqn:Ec; cbn [andb].
    + destruct (negb (_array_contains gpus (bdf dev) =? 0)) eqn:En.
      * rewrite in_app_iff. simpl. split.
        -- intros [[H|[H|[]]]|(d & Hd & Hc & Hx)].
           ++ now left.
           ++ right. exists dev. auto.
           ++ right. exists d. auto.
        -- intros [H|(d & [<-|Hd] & Hc & Hx)].
           ++ auto.
           ++ auto.
           ++ right. exists d. auto.
      * split.
        -- intros [H|(d & Hd & Hc & Hx)]; [now left|].
           right. exists d. simpl. auto.
        -- intros [H|(d & [<-|Hd] & Hc & Hx)].
           ++ now left.
           ++ left. subst x.
              destruct (_array_contains_In gpus (bdf dev)) as [H1 [H2|H2]];
                [now apply H1 | now rewrite H2 in En].
           ++ right. exists d. auto.
    + split.
      * intros [H|(d & Hd & Hc & Hx)]; [now left|].
        right. exists d. simpl. auto.
      * intros [H|(d & [<-|Hd] & Hc & Hx)].
        -- now left.
        -- congruence.
        -- right. exists d. auto.
Qed.

Lemma discovery_NoDup devs :
  forall gpus,
    List.NoDup gpus -> List.NoDup (_get_all_cc_capable_gpus gpus devs).
Proof.
  induction devs as [|dev devs IH]; intros gpus Hg; [exact Hg|].
  rewrite _get_all_cc_capable_gpus_step. apply IH.
  destruct (is_candidate dev); cbn [andb]; [|exact Hg].
  destruct (negb (_array_contains gpus (bdf dev) =? 0)) eqn:En; [|exact Hg].
  apply contains_In in En.
  apply NoDup_ListNoDup. apply NoDup_app. apply NoDup_ListNoDup in Hg.
  split; [exact Hg|]. split.
  - intros y Hy Hy'. apply list_elem_of_singleton in Hy'. subst y.
    apply En. now apply list_elem_of_In.
  - apply NoDup_singleton.
Qed.

(** X18: discovery lists exactly the entries whose vendor is 0x10de and
    whose class is 0x030000 or 0x030200, each once; the device id of an
    entry and the list of capable device ids play no part. *)
Theorem X18_discovery devs :
  (forall x,
     In x (_get_all_cc_capable_gpus [] devs) <->
     exists dev, In dev devs /\ is_candidate dev = true /\ bdf dev = x) /\
  List.NoDup (_get_all_cc_capable_gpus [] devs).
Proof.
  split.
  - intros x. rewrite discovery_elements. simpl. tauto.
  - apply discovery_NoDup. constructor.
Qed.

Example discovery_sample :
  _get_all_cc_capable_gpus [] sample_devices = ["0000:41:00.0"; "0000:61:00.0"].
Proof. reflexivity. Qed.

Lemma discovery_known devs :
  forall gpus,
    (forall dev, In dev devs -> is_candidate dev = true -> In (bdf dev) gpus) ->
    _get_all_cc_capable_gpus gpus devs = gpus.
Proof.
  induction devs as [|dev devs IH]; intros gpus Hk; [reflexivity|].
  rewrite _get_all_cc_capable_gpus_step.
  destruct (is_candidate dev) eqn:Ec; cbn [andb].
  - destruct (negb (_array_contains gpus (bdf dev) =? 0)) eqn:En.
    + apply contains_In in En. exfalso. apply En, Hk; [now left | exact Ec].
    + apply IH. intros d Hd. apply Hk. now right.
  - apply IH. intros d Hd. apply Hk. now right.
Qed.

(** X25: on a node without any entry of vendor 0x10de and class 0x030000
    or 0x030200, the discovery leaves [gpus] empty and [get_cc_mode] writes
    "off" and returns 0 without running a command, whatever the list of
    capable device ids holds. *)
Theorem X25_get_cc_mode_without_candidates devs v env h :
  (forall dev, In dev devs -> is_candidate dev = false) ->
  Script.gpus (discovered devs v) = [] /\
  Script.get_cc_mode (discovered devs v) env h = (Shell.Ret (0, ["off"]), h).
Proof.
  intros Hnone.
  assert (Hg : Script.gpus (discovered devs v) = []).
  { cbn [discovered Script.gpus]. apply discovery_known.
    intros dev Hd Hc. rewrite (Hnone dev Hd) in Hc. discriminate Hc. }
  split; [exact Hg|]. unfold Script.get_cc_mode. now rewrite Hg.
Qed.

Lemma X25_get_cc_mode_without_candidates_witness :
  Script.get_cc_mode
    (discovered [Discovery.PciDevice "0000:00:02.0" "0x8086" "0x030000" "0x3e92"]
                (Node.one_gpu "on"))
    (Node.healthy Node.all_on) []
  = (Shell.Ret (0, ["off"]), []).
Proof.
  apply (X25_get_cc_mode_without_candidates
           [Discovery.PciDevice "0000:00:02.0" "0x8086" "0x030000" "0x3e92"]).
  intros dev [<-|[]]. reflexivity.
Defined.

(** C10 fails on a node whose only NVIDIA display controller has a device
    id outside the list [CC_CAPABLE_DEVICE_IDS]: the list is read, none of
    the devices of the node is in it, but the discovery never looks at a
    device id and puts the device into [gpus]; [get_cc_mode] then queries
    the device and reports its mode, "on", where the claim says "off". *)
Theorem C10_device_outside_allow_list :
  let device_ids := snd (_populate_cc_capable_device_ids "0x2331") in
  let v := discovered unlisted_gpu (Node.no_gpu "on") in
  device_ids = ["0x2331"] /\
  List.filter (in_allow_list device_ids) unlisted_gpu = [] /\
  Script.gpus v = ["0000:61:00.0"] /\
  Script.get_cc_mode v (Node.healthy Node.all_on) []
  = (Shell.Ret (0, [ "getting cc mode of gpu 0000:61:00.0";
                     "current cc mode of all supported gpus is on" ]),
     [ (Shell.QueryCCMode "0000:61:00.0",
        Shell.Resp 0 "GPU 0000:61:00.0 CC mode is on") ]).
Proof. vm_compute. repeat split. Qed.

(** X19: a second scan of the same entries leaves the array [gpus] as the
    first scan made it. *)
Theorem X19_discovery_rescan devs gpus :
  _get_all_cc_capable_gpus (_get_all_cc_capable_gpus gpus devs) devs
  = _get_all_cc_capable_gpus gpus devs.
Proof.
  apply discovery_known. intros dev Hd Hc.
  apply discovery_elements. right. now exists dev.
Qed.

Lemma has_blank_app s1 s2 :
  has_blank (s1 +:+ s2) = has_blank s1 || has_blank s2.
Proof.
  induction s1 as [|a s1 IH]; [reflexivity|]. rewrite append_String_l.
  simpl. rewrite IH. now rewrite orb_assoc.
Qed.





End DiscoveryFacts.

(** ** Writes of the status label in a cycle *)

Section StatusFacts.
Import Parse Shell Script Readings.
Local Open Scope sh_scope.

Ltac device_step :=
  first
    [ apply emits_ret
    | apply emits_exit_failed
    | apply emits_run; reflexivity
    | apply emits_bind; [ | | intros ? ]
    | match goal with
      | |- emits _ _ _ (if ?b then _ else _) => destruct b
      | |- emits _ _ _ (let '(_, _) := ?x in _) => destruct x
      end ].

Lemma _unbind_device_device_calls v gpu :
  emits v is_device_call is_device_call (_unbind_device gpu).
Proof.
  unfold _unbind_device, _unbind_device_from_driver.
  repeat device_step; auto.
Qed.

Lemma set_gpu_cc_mode_device_calls v gpu :
  emits v is_device_call is_device_call (set_gpu_cc_mode v gpu).
Proof.
  unfold set_gpu_cc_mode, _assert_gpu_cc_mode.
  repeat device_step; auto.
Qed.

Lemma rescheduled_writes v :
  call_writes (KubectlLabel (rescheduled_labels v)) = [].
Proof. reflexivity. Qed.

Lemma paused_writes v :
  call_writes (KubectlLabel (paused_labels v)) = [].
Proof. reflexivity. Qed.

Lemma status_writes_cons (e : event) (t : history) :
  status_writes (e :: t) = call_writes (fst e) ++ status_writes t.
Proof. reflexivity. Qed.

Lemma ends_without_writes v (P : call -> bool) {A} (o : outcome A) t :
  (forall c, P c = true -> call_writes c = []) ->
  ends v P P o t -> status_writes t = [].
Proof.
  intros HP. destruct o as [a|code]; simpl.
  - apply (status_writes_none P); exact HP.
  - intros (_ & t0 & r & -> & Ht0). rewrite status_writes_app.
    rewrite (status_writes_none P t0 HP Ht0). reflexivity.
Qed.

(** The writes of the status label by the body of the loop. *)
Lemma set_cc_mode_body_writes v gpu env h :
  exists o t,
    set_cc_mode_body v gpu env h = (o, h ++ t) /\
    match o with
    | Ret _ => status_writes t = []
    | Exit _ => status_writes t = [] \/ status_writes t = ["failed"]
    end.
Proof.
  unfold set_cc_mode_body. unfold bind at 1.
  destruct (_unbind_device_device_calls v gpu env h) as (t1 & E1 & O1).
  apply (ends_without_writes v is_device_call _ _ device_call_writes) in O1.
  destruct (_unbind_device gpu env h) as [[u|code] h1]; simpl in E1; subst h1;
    [|exists (Exit code), t1; auto].
  unfold bind at 1.
  destruct (negb (u =? 0)).
  { rewrite _exit_failed_eq. eexists _, (t1 ++ [_]).
    split; [now rewrite <- app_assoc|]. left.
    now rewrite status_writes_app, O1. }
  unfold ret at 1. cbv beta iota. unfold bind at 1.
  destruct (set_gpu_cc_mode_device_calls v gpu env (h ++ t1)) as (t2 & E2 & O2).
  apply (ends_without_writes v is_device_call _ _ device_call_writes) in O2.
  destruct (set_gpu_cc_mode v gpu env (h ++ t1)) as [[s|code] h2];
    simpl in E2; subst h2.
  2: { exists (Exit code), (t1 ++ t2). rewrite app_assoc.
       split; [reflexivity|].
       left. now rewrite status_writes_app, O1, O2. }
  destruct (negb (s =? 0)).
  - unfold bind, run. rewrite _exit_failed_eq.
    eexists _, (t1 ++ t2 ++ [_; _]).
    split; [now rewrite <- !app_assoc|]. right.
    rewrite !status_writes_app, O1, O2. reflexivity.
  - unfold ret. exists (Ret tt), (t1 ++ t2). rewrite app_assoc.
    split; [reflexivity|].
    now rewrite status_writes_app, O1, O2.
Qed.

Lemma set_cc_mode_loop_writes v gs :
  forall env h,
  exists o t,
    set_cc_mode_loop v gs env h = (o, h ++ t) /\
    match o with
    | Ret _ => status_writes t = []
    | Exit _ => status_writes t = [] \/ status_writes t = ["failed"]
    end.
Proof.
  induction gs as [|gpu gs IH]; intros env h; cbn [set_cc_mode_loop].
  { exists (Ret tt), []. unfold ret. now rewrite app_nil_r. }
  unfold bind.
  destruct (set_cc_mode_body_writes v gpu env h) as ([[]|code] & t1 & -> & O1);
    [|exists (Exit code), t1; auto].
  destruct (IH env (h ++ t1)) as (o & t2 & -> & O2).
  exists o, (t1 ++ t2). rewrite app_assoc. split; [reflexivity|].
  rewrite status_writes_app, O1. exact O2.
Qed.

(** X21: a cycle writes the status label at most once: [success] only in
    a cycle that returns, [failed] only in a cycle that leaves through
    [_exit_failed]; a cycle that returns 1 may have written [success]. *)
Theorem X21_status_written_once v env :
  match result (set_cc_mode v) env with
  | Ret _ =>
      status_writes (trace (set_cc_mode v) env) = [] \/
      status_writes (trace (set_cc_mode v) env) = ["success"]
  | Exit _ =>
      status_writes (trace (set_cc_mode v) env) = [] \/
      status_writes (trace (set_cc_mode v) env) = ["failed"]
  end.
Proof.
  unfold result, trace.
  destruct (gpus v) as [|gpu gs] eqn:Eg.
  { unfold set_cc_mode. rewrite Eg. simpl. now left. }
  rewrite set_cc_mode_phases by (rewrite Eg; discriminate).
  clear Eg.
  destruct (emits_assert_loop v (CC_MODE v) (gpus v) env []) as (t & Et & Ot).
  apply (ends_without_writes v is_query _ _ query_writes) in Ot.
  destruct (_assert_cc_mode_loop v (CC_MODE v) (gpus v) env []) as [[a|code] h1];
    simpl in Et; subst h1; [|simpl; auto].
  destruct (a =? 0); [simpl; auto|].
  destruct (_evict_spec v env t) as [(_ & ->)|(_ & tw & -> & Hw)];
    cbn [negb Z.eqb]; cbv beta iota.
  { simpl. left. now rewrite status_writes_app, Ot. }
  destruct (set_cc_mode_loop_writes v (gpus v) env
              (t ++ (KubectlLabel (paused_labels v),
                     env t (KubectlLabel (paused_labels v))) :: tw))
    as ([[]|code] & tl & -> & Ol).
  - apply (status_writes_none is_wait tw wait_writes) in Hw.
    cbv zeta. simpl. right.
    rewrite !status_writes_app, status_writes_cons, Ot, Hw, Ol.
    reflexivity.
  - apply (status_writes_none is_wait tw wait_writes) in Hw.
    simpl. rewrite !status_writes_app, status_writes_cons, Ot, Hw.
    exact Ol.
Qed.

End StatusFacts.

(** ** The mailbox between the informer and the loop of [start] *)

Section InformerFacts.
Import Watcher Main Informer Readings.

Lemma pending_le_1 s : (pending s <= 1)%nat.
Proof. unfold pending. destruct (rd s); try destruct (String.eqb _ _); lia. Qed.

Lemma step_pending s l s' r :
  step s l = Some (s', r) ->
  (length (option_list r) + pending s' <= count_sets [l] + pending s)%nat.
Proof.
  destruct l as [value| |]; simpl.
  - intros [= <- <-]. simpl. pose proof (pending_le_1 (Set_ value s)). lia.
  - destruct (rd s) eqn:Er; try discriminate. intros [= E]. revert E.
    unfold Get, Get_return, pending. rewrite Er.
    destruct (String.eqb (lastRead (config s)) (current (config s))) eqn:Eq;
      intros [= <- <-]; simpl.
    + rewrite Eq. lia.
    + rewrite String.eqb_refl. lia.
  - destruct (rd s) eqn:Er; try discriminate. intros [= <- <-].
    unfold pending. rewrite Er. simpl. rewrite String.eqb_refl. lia.
Qed.

Lemma count_sets_cons l ls :
  count_sets (l :: ls) = (count_sets [l] + count_sets ls)%nat.
Proof. unfold count_sets. simpl. now destruct l. Qed.

Lemma exec_pending ls :
  forall s s' rs,
    exec s ls = Some (s', rs) ->
    (length rs + pending s' <= count_sets ls + pending s)%nat.
Proof.
  induction ls as [|l ls IH]; intros s s' rs; cbn [exec].
  - intros [= <- <-]. simpl. lia.
  - destruct (step s l) as [[s1 r]|] eqn:Es; [|discriminate].
    destruct (exec s1 ls) as [[s2 rs']|] eqn:Ee; [|discriminate].
    intros [= <- <-]. apply step_pending in Es. apply IH in Ee.
    rewrite List.length_app, count_sets_cons. lia.
Qed.

(** X22: in every schedule of the handlers and of the loop, from the new
    mailbox, [Get] returns at most as many times as [Set] was called: the
    loop runs the script only after a call of [Set] of its own. *)
Theorem X22_returns_bounded ls s rs :
  exec initial ls = Some (s, rs) ->
  (length rs <= count_sets ls)%nat.
Proof.
  intros He. apply exec_pending in He.
  change (pending initial) with 0%nat in He. lia.
Qed.

Lemma X22_returns_bounded_witness :
  exec initial [CallGet; CallSet "on"; CallSet "off"; ResumeGet; CallGet]
  = Some ({| config := {| current := "off"; lastRead := "off" |};
             rd := Waiting |}, ["off"]) /\
  (length ["off"] <= count_sets
     [CallGet; CallSet "on"; CallSet "off"; ResumeGet; CallGet])%nat.
Proof.
  split; [reflexivity|].
  exact (X22_returns_bounded
           [CallGet; CallSet "on"; CallSet "off"; ResumeGet; CallGet]
           _ ["off"] eq_refl).
Defined.

Lemma last_cons {A} (l : list A) :
  forall a d, List.last (a :: l) d = List.last l a.
Proof.
  induction l as [|b l IH]; intros a d; [reflexivity|].
  change (List.last (a :: b :: l) d) with (List.last (b :: l) d).
  now rewrite !IH.
Qed.

Lemma updates_current versions :
  forall obj s,
    current (config s) = label_of obj ->
    current (config (updates obj versions s))
    = label_of (List.last versions obj) /\
    lastRead (config (updates obj versions s)) = lastRead (config s).
Proof.
  induction versions as [|newObj versions IH]; intros obj s Hs;
    cbn [updates]; [now split|].
  assert (Hu : current (config (UpdateFunc obj newObj s)) = label_of newObj /\
               lastRead (config (UpdateFunc obj newObj s)) = lastRead (config s)).
  { unfold UpdateFunc.
    destruct (String.eqb_spec (label_of obj) (label_of newObj)) as [E|E];
      cbn [negb]; [|now split].
    split; [congruence | reflexivity]. }
  destruct Hu as [Hc Hl].
  destruct (IH newObj _ Hc) as [IHc IHl]. rewrite IHc, IHl, Hl.
  split; [|reflexivity].
  now rewrite last_cons.
Qed.

(** X23: after the notifications for a node and its later versions,
    [current] is the label of the latest version (the empty string when it
    has none), although [UpdateFunc] skips the versions that leave the
    label as it was; the handlers never change [lastRead]. *)
Theorem X23_mailbox_follows_label obj versions s :
  current (config (notify obj versions s))
  = label_of (List.last versions obj) /\
  lastRead (config (notify obj versions s)) = lastRead (config s).
Proof.
  unfold notify.
  destruct (updates_current versions obj (AddFunc obj s) eq_refl) as [Hc Hl].
  now rewrite Hc, Hl.
Qed.

End InformerFacts.

(** ** The list of device ids, read back *)

Section DeviceIdFacts.
Import Text Parse Discovery Readings.

(** A string without blanks is read as one word. *)
Lemma words_from_word (w : string) :
  forall cur, has_blank w = false -> words_from cur w = flush (cur +:+ w).
Proof.
  induction w as [|a w IH]; intros cur Hw; cbn [words_from].
  - clear Hw. f_equal. induction cur as [|c cur IHc]; [reflexivity|].
    rewrite append_String_l. now rewrite <- IHc.
  - simpl in Hw. apply orb_false_elim in Hw as [Ha Hw]. rewrite Ha.
    rewrite IH by exact Hw. now rewrite append_assoc_str.
Qed.

Lemma word_alone (w : string) :
  w <> "" -> has_blank w = false -> words w = [w].
Proof.
  intros Hne Hb. unfold words. rewrite words_from_word by exact Hb.
  rewrite append_empty_l. unfold flush.
  now destruct (String.eqb_spec w "").
Qed.

Lemma tr_char_append a b s1 s2 :
  tr_char a b (s1 +:+ s2) = tr_char a b s1 +:+ tr_char a b s2.
Proof.
  induction s1 as [|c s1 IH]; [reflexivity|]. rewrite append_String_l.
  simpl. rewrite IH. now rewrite append_String_l.
Qed.

Lemma tr_char_absent a b s : has_char a s = false -> tr_char a b s = s.
Proof.
  induction s as [|c s IH]; [reflexivity|]. simpl.
  intros [Hc Hs]%orb_false_elim. rewrite Hc. now rewrite IH.
Qed.

Lemma tr_char_concat (ids : list string) :
  Forall is_id ids ->
  tr_char "," "010" (String.concat "," ids) = String.concat (String "010" "") ids.
Proof.
  induction 1 as [|id ids (_ & Hc & _) _ IH]; [reflexivity|].
  destruct ids as [|id' ids].
  - simpl. now apply tr_char_absent.
  - rewrite !concat_cons by discriminate.
    rewrite !tr_char_append, IH. now rewrite tr_char_absent by exact Hc.
Qed.

Lemma concat_ids (sep : string) (ids : list string) :
  has_blank sep = false -> ids <> [] -> Forall is_id ids ->
  String.concat sep ids <> "" /\ has_blank (String.concat sep ids) = false.
Proof.
  intros Hsep Hne H. induction H as [|id ids (Hid & _ & Hb) _ IH];
    [contradiction|].
  destruct ids as [|id' ids]; [now split|].
  rewrite concat_cons by discriminate. split.
  - destruct id; [contradiction|]. rewrite append_String_l. discriminate.
  - rewrite !has_blank_app, Hb, Hsep.
    now destruct (IH ltac:(discriminate)) as [_ ->].
Qed.

Lemma words_lines (ids : list string) :
  Forall is_id ids -> words (String.concat (String "010" "") ids) = ids.
Proof.
  induction 1 as [|id ids (Hid & _ & Hb) _ IH]; [reflexivity|].
  destruct ids as [|id' ids]; [now apply word_alone|].
  rewrite concat_cons by discriminate.
  change (String "010" "" +:+ String.concat (String "010" "") (id' :: ids))
    with (String "010" (String.concat (String "010" "") (id' :: ids))).
  unfold words at 1. rewrite words_from_blank by reflexivity.
  rewrite IH. fold (words id). now rewrite word_alone.
Qed.

(** X24: a list of device ids written with commas between them is read
    back as it is, with status 0, when the list is not empty, every id is
    not empty and holds neither a comma nor a blank nor a pattern
    character, and [echo] does not take the value for options (which it
    does with the one id -n). *)
Theorem X24_device_ids_read_back (ids : list string) :
  ids <> [] -> Forall is_id ids ->
  Forall (fun id => is_literal id = true) ids ->
  echo_option (String.concat "," ids) = false ->
  _populate_cc_capable_device_ids (String.concat "," ids) = (0, ids).
Proof.
  intros Hne Hids _ _. unfold _populate_cc_capable_device_ids.
  destruct (concat_ids "," ids eq_refl Hne Hids) as [Hs Hb].
  unfold echo_unquoted. rewrite (word_alone _ Hs Hb).
  change (String.concat " " [String.concat "," ids])
    with (String.concat "," ids).
  rewrite tr_char_concat by exact Hids. rewrite words_lines by exact Hids.
  destruct ids; [contradiction | reflexivity].
Qed.

Lemma X24_device_ids_read_back_witness :
  _populate_cc_capable_device_ids "0x2331,0x2339"
  = (0, ["0x2331"; "0x2339"]).
Proof.
  apply (X24_device_ids_read_back ["0x2331"; "0x2339"]).
  - discriminate.
  - repeat constructor; discriminate.
  - repeat constructor.
  - reflexivity.
Defined.

End DeviceIdFacts.
